(** * PII remediation Lambda (src/lambda/pii_processor.py)

    A shallow embedding of the Lambda that reacts to Macie findings:
    [lambda_handler], [get_configuration], [process_macie_finding],
    [handle_pii_in_s3_object], [quarantine_object],
    [tag_object_with_pii_info] and [send_high_severity_alert].

    Python values are an inductive type, the boto3 clients and the clock are
    an oracle carried by the state, and every function of the source is a
    computation in a state-and-exception monad over that state.

    The two checks of src/scripts/validate.py that read plain text and JSON,
    [validate_lambda_code] and [validate_bucket_policies], are embedded in
    the same monad over the files and the console of the script. *)

From Stdlib Require Import ZArith.
From Corelib Require Import PrimFloat.
From stdpp Require Import base strings pretty gmap list.

Open Scope Z_scope.
Open Scope string_scope.
Open Scope list_scope.

(** ** Python values and the fragment of the language the source uses *)
Module Python.

(** The values an event decoded from JSON is made of: [None], booleans,
    integers, floats, strings, lists and dicts.  A [dict] keeps its
    insertion order; a lookup returns the first binding of the key. *)
#[warnings="-register-all"] Inductive pyval : Type :=
| PNone
| PBool (b : bool)
| PInt (n : Z)
| PFloat (x : float)
| PStr (s : string)
| PList (xs : list pyval)
| PDict (kvs : list (string * pyval)).

Abbreviation dict := (list (string * pyval)).

(** An exception: its class and the text [str(e)] gives. *)
Record exn : Type := Exn { exn_class : string; exn_str : string }.

Inductive res (A : Type) : Type :=
| Ok (a : A)
| Raise (e : exn).
Arguments Ok {A} a.
Arguments Raise {A} e.

(** [type(v).__name__] *)
Definition type_name (v : pyval) : string :=
  match v with
  | PNone => "NoneType"
  | PBool _ => "bool"
  | PInt _ => "int"
  | PFloat _ => "float"
  | PStr _ => "str"
  | PList _ => "list"
  | PDict _ => "dict"
  end.

Definition AttributeError (v : pyval) (attr : string) : exn :=
  Exn "AttributeError"
      ("'" +:+ type_name v +:+ "' object has no attribute '" +:+ attr +:+ "'").

Definition TypeError_not_iterable (v : pyval) : exn :=
  Exn "TypeError" ("'" +:+ type_name v +:+ "' object is not iterable").

Definition KeyError (k : string) : exn :=
  Exn "KeyError" ("'" +:+ k +:+ "'").

Fixpoint dict_get (d : dict) (k : string) : option pyval :=
  match d with
  | [] => None
  | (k', v) :: d' => if String.eqb k' k then Some v else dict_get d' k
  end.

(** [d[k] = v]: the binding is replaced in place, a new key goes last. *)
Fixpoint dict_set (d : dict) (k : string) (v : pyval) : dict :=
  match d with
  | [] => [(k, v)]
  | (k', v') :: d' =>
      if String.eqb k' k then (k, v) :: d' else (k', v') :: dict_set d' k v
  end.

(** [d.get(k, dflt)] on a value known to be a dict. *)
Definition dict_get_default (d : dict) (k : string) (dflt : pyval) : pyval :=
  default dflt (dict_get d k).

(** [d[k]] on a value known to be a dict. *)
Definition getitem (d : dict) (k : string) : res pyval :=
  match dict_get d k with
  | Some v => Ok v
  | None => Raise (KeyError k)
  end.

(** [d[k].append(x)] *)
Definition list_append (d : dict) (k : string) (x : pyval) : res dict :=
  match dict_get d k with
  | Some (PList xs) => Ok (dict_set d k (PList (xs ++ [x])))
  | Some v => Raise (AttributeError v "append")
  | None => Raise (KeyError k)
  end.

(** [v.get(k, dflt)] on an arbitrary value: only a dict has [get]. *)
Definition py_get (v : pyval) (k : string) (dflt : pyval) : res pyval :=
  match v with
  | PDict d => Ok (dict_get_default d k dflt)
  | _ => Raise (AttributeError v "get")
  end.

(** The truth value [if v] and [v and ...] test. *)
Definition truthy (v : pyval) : bool :=
  match v with
  | PNone => false
  | PBool b => b
  | PInt n => negb (n =? 0)%Z
  | PFloat x => negb (PrimFloat.eqb x PrimFloat.zero)
  | PStr s => negb (String.eqb s "")
  | PList xs => match xs with [] => false | _ => true end
  | PDict kvs => match kvs with [] => false | _ => true end
  end.

(** [v == s] for a string literal [s]. *)
Definition py_eq_str (v : pyval) (s : string) : bool :=
  match v with
  | PStr t => String.eqb t s
  | _ => false
  end.

(** [v in [s1, ..., sn]] for string literals. *)
Definition py_in_strs (v : pyval) (ss : list string) : bool :=
  existsb (py_eq_str v) ss.

Fixpoint chars (s : string) : list pyval :=
  match s with
  | EmptyString => []
  | String c s' => PStr (String c EmptyString) :: chars s'
  end.

(** The items [for x in v] visits: the elements of a list, the keys of a
    dict, the characters of a string; anything else is not iterable. *)
Definition py_iter (v : pyval) : res (list pyval) :=
  match v with
  | PList xs => Ok xs
  | PDict kvs => Ok (map (λ kv, PStr (fst kv)) kvs)
  | PStr s => Ok (chars s)
  | _ => Raise (TypeError_not_iterable v)
  end.

Fixpoint is_prefix (p s : string) : bool :=
  match p, s with
  | EmptyString, _ => true
  | String a p', String b s' => if Ascii.eqb a b then is_prefix p' s' else false
  | String _ _, EmptyString => false
  end.

(** [s.replace(old, new)] for a non-empty [old]: occurrences are replaced
    from left to right without overlap; [skip] counts the characters of
    the occurrence being replaced that are still to be dropped. *)
Fixpoint str_replace_from (old new s : string) (skip : nat) : string :=
  match s with
  | EmptyString => EmptyString
  | String c s' =>
      match skip with
      | S n => str_replace_from old new s' n
      | O =>
          if is_prefix old s
          then new +:+ str_replace_from old new s' (String.length old - 1)
          else String c (str_replace_from old new s' 0)
      end
  end.

Definition str_replace (old new s : string) : string :=
  str_replace_from old new s 0.

(** The built-ins the source calls and that the embedding takes as given:
    [repr] (what an f-string prints for a value that is not a string),
    [json.dumps] and [str.lower]. *)
Class Builtins : Type := {
  repr : pyval → string;
  json_dumps : pyval → string;
  str_lower : string → string
}.

(** [str(v)], as an f-string applies it: a string is itself, and for the
    other values of [pyval] [str] is [repr]. *)
Definition py_str `{Builtins} (v : pyval) : string :=
  match v with
  | PStr s => s
  | _ => repr v
  end.

(** [v.lower()]: only a string has [lower]. *)
Definition py_lower `{Builtins} (v : pyval) : res string :=
  match v with
  | PStr s => Ok (str_lower s)
  | _ => Raise (AttributeError v "lower")
  end.

End Python.
Export Python.

(** ** The services behind the boto3 clients, the clock and the logger *)
Module Aws.

(** A [datetime], observed only through the two renderings the source
    asks for: [isoformat()] and [strftime('%Y-%m-%d')]. *)
Record datetime : Type := Datetime { isoformat : string; strftime_ymd : string }.

(** One request sent through a client, with its keyword arguments. *)
Inductive call : Type :=
| GetParametersByPath (Path : string) (Recursive WithDecryption : bool)
| CopyObject (CopySource : dict) (Bucket : pyval) (Key : string)
             (ServerSideEncryption : string) (Metadata : dict)
             (MetadataDirective : string)
| PutObjectAcl (Bucket : pyval) (Key : string) (ACL : string)
| PutObjectTagging (Bucket Key : pyval) (Tagging : dict)
| PutEvents (Source DetailType Detail : string) (Time : datetime).

Record parameter : Type := Param { Name : string; Value : string }.

(** What a client call does: it returns (for [get_parameters_by_path], a
    page of parameters), or it raises. *)
Inductive response : Type :=
| Done
| Page (ps : list parameter)
| Fails (e : exn).

Inductive level : Type := INFO | WARNING | ERROR.

(** The state one invocation runs in.  [respond] and [clock] are the
    environment: the answer of the services to a call, given the calls made
    so far, and the successive readings of [datetime.utcnow()].  [calls],
    [ticks] and [logs] record what the invocation did, oldest first. *)
Record world : Type := World {
  environ : gmap string string;
  respond : list call → call → response;
  clock : nat → datetime;
  calls : list call;
  ticks : nat;
  logs : list (level * string)
}.

Definition add_call (c : call) (w : world) : world :=
  World (environ w) (respond w) (clock w) (calls w ++ [c]) (ticks w) (logs w).

Definition add_tick (w : world) : world :=
  World (environ w) (respond w) (clock w) (calls w) (S (ticks w)) (logs w).

Definition add_log (r : level * string) (w : world) : world :=
  World (environ w) (respond w) (clock w) (calls w) (ticks w) (logs w ++ [r]).

(** Computations that read and change a state and may raise.  A raise
    keeps the state reached: what was done before it stays done. *)
Definition ST (S A : Type) : Type := S → res A * S.

#[export] Instance ST_ret {S} : MRet (ST S) :=
  fun A a s => (Ok a, s).

#[export] Instance ST_bind {S} : MBind (ST S) :=
  fun A B f m s =>
    match m s with
    | (Ok a, s') => f a s'
    | (Raise e, s') => (Raise e, s')
    end.

Definition raise {S A} (e : exn) : ST S A := λ s, (Raise e, s).

(** [try: body / except Exception as e: handler e] *)
Definition try_except {S A} (body : ST S A) (handler : exn → ST S A) : ST S A :=
  λ s,
    match body s with
    | (Ok a, s') => (Ok a, s')
    | (Raise e, s') => handler e s'
    end.

(** A pure step that may raise. *)
Definition eval {S A} (r : res A) : ST S A := λ s, (r, s).

(** The functions of the source run on the [world]. *)
Abbreviation M := (ST world).

(** A function that fills in a dict of its own ([result],
    [action_result]) runs on that dict and the world. *)
Definition with_world {L A} (m : M A) : ST (L * world) A :=
  λ s, let '(r, w') := m (snd s) in (r, (fst s, w')).

Definition local_read {L A} (f : L → res A) : ST (L * world) A :=
  λ s, (f (fst s), s).

Definition local_write {L} (f : L → res L) : ST (L * world) unit :=
  λ s,
    match f (fst s) with
    | Ok l' => (Ok (), (l', snd s))
    | Raise e => (Raise e, s)
    end.

(** Runs [m] on a fresh local object [l0]; the object is what [m] leaves. *)
Definition run_local {L A} (l0 : L) (m : ST (L * world) A) : M A :=
  λ w, let '(r, s') := m (l0, w) in (r, snd s').

(** [datetime.utcnow()] *)
Definition utcnow : M datetime := λ w, (Ok (clock w (ticks w)), add_tick w).

(** [logger.info], [logger.warning], [logger.error] *)
Definition log (lvl : level) (msg : string) : M unit := λ w,
  (Ok (), add_log (lvl, msg) w).

(** [os.environ.get(k, dflt)] *)
Definition environ_get (k dflt : string) : M string := λ w,
  (Ok (default dflt (environ w !! k)), w).

(** A call through a client: it is recorded, then answered by the
    environment. *)
Definition client_call (c : call) : M response := λ w,
  match respond w (calls w) c with
  | Fails e => (Raise e, add_call c w)
  | r => (Ok r, add_call c w)
  end.

(** [response['Parameters']] *)
Definition response_parameters (r : response) : res (list parameter) :=
  match r with
  | Page ps => Ok ps
  | _ => Raise (KeyError "Parameters")
  end.

End Aws.
Export Aws.

(** ** The Lambda: src/lambda/pii_processor.py *)
Module PiiProcessor.
Section Code.

Context `{!Builtins}.

Abbreviation config_t := (gmap string string).

(** [for x in xs: body x] *)
Fixpoint for_each {S A} (xs : list A) (body : A → ST S unit) : ST S unit :=
  match xs with
  | [] => mret ()
  | x :: xs' => body x;; for_each xs' body
  end.

(** Lines 62-91. *)
Definition get_configuration : M config_t :=
  project_name ← environ_get "PROJECT_NAME" "media-processing-pipeline";
  environment ← environ_get "ENVIRONMENT" "dev";
  let parameter_prefix := "/" +:+ project_name +:+ "/" +:+ environment in
  try_except
    (response ← client_call (GetParametersByPath parameter_prefix true true);
     parameters ← eval (response_parameters response);
     let config :=
       foldl (λ (config : config_t) param,
                let key := str_replace (parameter_prefix +:+ "/") "" (Name param) in
                <[key := Value param]> config)
             ∅ parameters in
     log INFO ("Retrieved " +:+ py_str (PInt (Z.of_nat (size config)))
               +:+ " configuration parameters");;
     mret config)
    (λ e,
       log ERROR ("Failed to retrieve configuration: " +:+ exn_str e);;
       raise e).

(** Lines 187-240.  The keyword arguments of [copy_object] are built
    before the call, so the clock is read first. *)
Definition quarantine_object (bucket_name object_key : pyval) (config : config_t)
  : M dict :=
  try_except
    (let quarantine_prefix := "quarantine/" in
     let quarantine_key := quarantine_prefix +:+ py_str object_key in
     let copy_source := [("Bucket", bucket_name); ("Key", object_key)] in
     now ← utcnow;
     client_call
       (CopyObject copy_source bucket_name quarantine_key "AES256"
          [("quarantine-reason", PStr "PII-detected");
           ("quarantine-timestamp", PStr (isoformat now));
           ("original-key", object_key)]
          "REPLACE");;
     client_call (PutObjectAcl bucket_name quarantine_key "private");;
     log INFO ("Quarantined object: " +:+ py_str bucket_name +:+ "/"
               +:+ py_str object_key +:+ " -> " +:+ py_str bucket_name
               +:+ "/" +:+ quarantine_key);;
     mret [("action", PStr "quarantine");
           ("status", PStr "success");
           ("quarantine_location",
            PStr (py_str bucket_name +:+ "/" +:+ quarantine_key))])
    (λ e,
       log ERROR ("Failed to quarantine object " +:+ py_str bucket_name
                  +:+ "/" +:+ py_str object_key +:+ ": " +:+ exn_str e);;
       mret [("action", PStr "quarantine");
             ("status", PStr "failed");
             ("error", PStr (exn_str e))]).

(** Lines 242-285.  The tag dict is built left to right: [severity.lower()]
    is evaluated before the clock is read. *)
Definition tag_object_with_pii_info (bucket_name object_key severity : pyval)
  : M dict :=
  try_except
    (lowered ← eval (py_lower severity);
     now ← utcnow;
     let tags := [("pii-detected", PStr "true");
                  ("pii-severity", PStr lowered);
                  ("pii-detection-date", PStr (strftime_ymd now));
                  ("security-status", PStr "flagged")] in
     let tag_set :=
       map (λ kv, PDict [("Key", PStr (fst kv)); ("Value", snd kv)]) tags in
     client_call
       (PutObjectTagging bucket_name object_key [("TagSet", PList tag_set)]);;
     log INFO ("Tagged object " +:+ py_str bucket_name +:+ "/"
               +:+ py_str object_key +:+ " with PII information");;
     mret [("action", PStr "tag");
           ("status", PStr "success");
           ("tags_applied", PDict tags)])
    (λ e,
       log ERROR ("Failed to tag object " +:+ py_str bucket_name +:+ "/"
                  +:+ py_str object_key +:+ ": " +:+ exn_str e);;
       mret [("action", PStr "tag");
             ("status", PStr "failed");
             ("error", PStr (exn_str e))]).

(** Lines 143-185.  [action_result] is the local dict the function fills
    in; the handler of the [try] sees it as the body left it. *)
Definition handle_pii_in_s3_object
    (bucket_name object_key severity : pyval) (config : config_t) : M dict :=
  run_local
    [("bucket", bucket_name);
     ("key", object_key);
     ("severity", severity);
     ("actions", PList [])]
    (try_except
       ((if py_in_strs severity ["HIGH"; "CRITICAL"] then
           quarantine_result ←
             with_world (quarantine_object bucket_name object_key config);
           local_write (λ action_result,
             list_append action_result "actions" (PDict quarantine_result))
         else mret ());;
        tag_result ←
          with_world (tag_object_with_pii_info bucket_name object_key severity);
        local_write (λ action_result,
          list_append action_result "actions" (PDict tag_result));;
        with_world
          (log INFO ("Handled PII in " +:+ py_str bucket_name +:+ "/"
                     +:+ py_str object_key +:+ " with severity "
                     +:+ py_str severity)))
       (λ e,
          with_world
            (log ERROR ("Error handling PII in " +:+ py_str bucket_name
                        +:+ "/" +:+ py_str object_key +:+ ": " +:+ exn_str e));;
          local_write (λ action_result,
            Ok (dict_set action_result "error" (PStr (exn_str e)))));;
     local_read Ok).

(** Lines 296-317: the [try] block of [send_high_severity_alert].  It runs
    on the dict its caller passes as [result] (the caller's own object, not
    a copy) and on the world. *)
Definition alert_attempt (config : config_t) : ST (dict * world) unit :=
  finding_id ← local_read (λ result, getitem result "finding_id");
  severity ← local_read (λ result, getitem result "severity");
  type ← local_read (λ result, getitem result "type");
  actions_taken ← local_read (λ result, getitem result "actions_taken");
  timestamp ← local_read (λ result, getitem result "timestamp");
  let event_detail := [("finding_id", finding_id);
                       ("severity", severity);
                       ("type", type);
                       ("actions_taken", actions_taken);
                       ("alert_level", PStr "HIGH");
                       ("timestamp", timestamp)] in
  let detail := json_dumps (PDict event_detail) in
  now ← with_world utcnow;
  with_world
    (client_call
       (PutEvents "media-processing-pipeline.security"
          "High Severity PII Detection" detail now));;
  finding_id ← local_read (λ result, getitem result "finding_id");
  with_world
    (log INFO ("Sent high severity alert for finding " +:+ py_str finding_id)).

(** Lines 287-320. *)
Definition send_high_severity_alert (config : config_t) : ST (dict * world) unit :=
  try_except
    (alert_attempt config)
    (λ e,
       with_world
         (log ERROR ("Failed to send high severity alert: " +:+ exn_str e))).

(** Line 106: [detail.get('severity', {}).get('description', 'UNKNOWN')]. *)
Definition extract_severity (detail : pyval) : res pyval :=
  match py_get detail "severity" (PDict []) with
  | Ok severity => py_get severity "description" (PStr "UNKNOWN")
  | Raise e => Raise e
  end.

(** Lines 123-135: the body of the loop over the affected resources. *)
Definition process_resource (severity : pyval) (config : config_t)
    (resource : pyval) : ST (dict * world) unit :=
  resource_type ← eval (py_get resource "resourceType" PNone);
  if py_eq_str resource_type "S3Object" then
    s3_resource ← eval (py_get resource "s3Object" (PDict []));
    bucket_name ← eval (py_get s3_resource "bucketName" PNone);
    object_key ← eval (py_get s3_resource "key" PNone);
    if truthy bucket_name && truthy object_key then
      action_result ←
        with_world (handle_pii_in_s3_object bucket_name object_key severity config);
      local_write (λ result,
        list_append result "actions_taken" (PDict action_result))
    else mret ()
  else mret ().

(** Lines 93-141.  [result] is the local dict the function fills in. *)
Definition process_macie_finding (event : dict) (config : config_t) : M dict :=
  let detail := dict_get_default event "detail" (PDict []) in
  finding_id ← eval (py_get detail "id" PNone);
  severity ← eval (extract_severity detail);
  finding_type ← eval (py_get detail "type" PNone);
  log INFO ("Processing Macie finding " +:+ py_str finding_id
            +:+ " with severity " +:+ py_str severity);;
  affected_resources ← eval (py_get detail "resources" (PList []));
  now ← utcnow;
  run_local
    [("finding_id", finding_id);
     ("severity", severity);
     ("type", finding_type);
     ("actions_taken", PList []);
     ("timestamp", PStr (isoformat now))]
    (resources ← eval (py_iter affected_resources);
     for_each resources (process_resource severity config);;
     (if py_in_strs severity ["HIGH"; "CRITICAL"]
      then send_high_severity_alert config
      else mret ());;
     local_read Ok).

(** The response envelope of the handler. *)
Record envelope : Type := Envelope { statusCode : Z; body : string }.

(** Lines 18-60, with the function called at line 37 as a parameter, so
    that a statement can say that a run does not depend on it. *)
Definition lambda_handler_with (engine : dict → config_t → M dict)
    (event : dict) (context : pyval) : M envelope :=
  try_except
    (log INFO ("Received event: " +:+ json_dumps (PDict event));;
     config ← get_configuration;
     result ←
       (if py_eq_str (dict_get_default event "source" PNone) "aws.macie2"
        then engine event config
        else
          log WARNING ("Unexpected event source: "
                       +:+ py_str (dict_get_default event "source" PNone));;
          mret [("processed", PBool false);
                ("reason", PStr "Unknown event source")]);
     now ← utcnow;
     mret (Envelope 200
             (json_dumps
                (PDict [("message", PStr "Event processed successfully");
                        ("result", PDict result);
                        ("timestamp", PStr (isoformat now))]))))
    (λ e,
       log ERROR ("Error processing event: " +:+ exn_str e);;
       now ← utcnow;
       mret (Envelope 500
               (json_dumps
                  (PDict [("error", PStr "Event processing failed");
                          ("message", PStr (exn_str e));
                          ("timestamp", PStr (isoformat now))])))).

(** Lines 18-60. *)
Definition lambda_handler (event : dict) (context : pyval) : M envelope :=
  lambda_handler_with process_macie_finding event context.

End Code.
End PiiProcessor.
Export PiiProcessor.

(** ** Sample runtime, environments and events

    A concrete instance of the built-ins and a few worlds and events, on
    which the definitions above are run. *)
Module Sample.

Definition quote : string := String (Ascii.ascii_of_nat 34) EmptyString.

Definition lower_ascii (c : Ascii.ascii) : Ascii.ascii :=
  let n := Ascii.nat_of_ascii c in
  if ((65 <=? n) && (n <=? 90))%nat then Ascii.ascii_of_nat (n + 32) else c.

Fixpoint lower (s : string) : string :=
  match s with
  | EmptyString => EmptyString
  | String c s' => String (lower_ascii c) (lower s')
  end.

Definition decimal (n : Z) : string :=
  match n with
  | Zneg p => "-" +:+ pretty (N.pos p)
  | _ => pretty (Z.to_N n)
  end.

(** A plain rendering of a value: [q] delimits a string and [none],
    [true_s], [false_s] are the constants; strings are not escaped and a
    float is printed as a mark (no sample value holds one). *)
Fixpoint render (q none true_s false_s : string) (v : pyval) : string :=
  match v with
  | PNone => none
  | PBool b => if b then true_s else false_s
  | PInt n => decimal n
  | PFloat _ => "<float>"
  | PStr s => q +:+ s +:+ q
  | PList xs =>
      "[" +:+
      (fix items (xs : list pyval) : string :=
         match xs with
         | [] => ""
         | [x] => render q none true_s false_s x
         | x :: xs' => render q none true_s false_s x +:+ ", " +:+ items xs'
         end) xs
      +:+ "]"
  | PDict kvs =>
      "{" +:+
      (fix items (kvs : list (string * pyval)) : string :=
         match kvs with
         | [] => ""
         | [(k, x)] => q +:+ k +:+ q +:+ ": " +:+ render q none true_s false_s x
         | (k, x) :: kvs' =>
             q +:+ k +:+ q +:+ ": " +:+ render q none true_s false_s x
             +:+ ", " +:+ items kvs'
         end) kvs
      +:+ "}"
  end.

#[export] Instance runtime : Builtins := {|
  repr := render "'" "None" "True" "False";
  json_dumps := render quote "null" "true" "false";
  str_lower := lower
|}.

Definition noon (n : nat) : datetime :=
  Datetime ("2024-05-01T12:00:0" +:+ pretty n) "2024-05-01".

Definition all_up (history : list call) (c : call) : response :=
  match c with
  | GetParametersByPath _ _ _ =>
      Page [Param "/media-processing-pipeline/dev/alert-topic" "security"]
  | _ => Done
  end.

Definition s3_down (history : list call) (c : call) : response :=
  match c with
  | CopyObject _ _ _ _ _ _ | PutObjectAcl _ _ _ | PutObjectTagging _ _ _ =>
      Fails (Exn "ClientError" "AccessDenied")
  | _ => all_up history c
  end.

Definition bus_down (history : list call) (c : call) : response :=
  match c with
  | PutEvents _ _ _ _ => Fails (Exn "EndpointConnectionError" "event bus unreachable")
  | _ => all_up history c
  end.

Definition copy_down (history : list call) (c : call) : response :=
  match c with
  | CopyObject _ _ _ _ _ _ => Fails (Exn "ClientError" "AccessDenied")
  | _ => all_up history c
  end.

Definition tagging_down (history : list call) (c : call) : response :=
  match c with
  | PutObjectTagging _ _ _ => Fails (Exn "ClientError" "AccessDenied")
  | _ => all_up history c
  end.

Definition ssm_down (history : list call) (c : call) : response :=
  match c with
  | GetParametersByPath _ _ _ =>
      Fails (Exn "ClientError" "parameter store unreachable")
  | _ => all_up history c
  end.

Definition fresh (answers : list call → call → response) : world :=
  World ∅ answers noon [] 0 [].

Definition a_csv : pyval :=
  PDict [("resourceType", PStr "S3Object");
         ("s3Object", PDict [("bucketName", PStr "media");
                             ("key", PStr "reports/a.csv")])].

Definition finding (severity : string) (resources : list pyval) : dict :=
  [("source", PStr "aws.macie2");
   ("detail", PDict [("id", PStr "f-1");
                     ("severity", PDict [("description", PStr severity)]);
                     ("type", PStr "SensitiveData:S3Object/Personal");
                     ("resources", PList resources)])].

Definition other_tool : dict :=
  [("source", PStr "other.tool"); ("detail", PDict [])].

Definition a_bucket : pyval :=
  PDict [("resourceType", PStr "S3Bucket")].

Definition keyless : pyval :=
  PDict [("resourceType", PStr "S3Object");
         ("s3Object", PDict [("bucketName", PStr "media")])].

Definition b_csv : pyval :=
  PDict [("resourceType", PStr "S3Object");
         ("s3Object", PDict [("bucketName", PStr "media");
                             ("key", PStr "reports/b.csv")])].

(** The outcome of a successful tagging, for a lower-case severity. *)
Definition tagged (lowered : string) : pyval :=
  PDict [("action", PStr "tag");
         ("status", PStr "success");
         ("tags_applied",
          PDict [("pii-detected", PStr "true");
                 ("pii-severity", PStr lowered);
                 ("pii-detection-date", PStr "2024-05-01");
                 ("security-status", PStr "flagged")])].

Definition quarantined (location : string) : pyval :=
  PDict [("action", PStr "quarantine");
         ("status", PStr "success");
         ("quarantine_location", PStr location)].

Definition refused (action : string) : pyval :=
  PDict [("action", PStr action);
         ("status", PStr "failed");
         ("error", PStr "AccessDenied")].

Definition outcome (key severity : string) (actions : list pyval) : pyval :=
  PDict [("bucket", PStr "media");
         ("key", PStr key);
         ("severity", PStr severity);
         ("actions", PList actions)].

Definition finding_result (severity : string) (actions_taken : list pyval) : dict :=
  [("finding_id", PStr "f-1");
   ("severity", PStr severity);
   ("type", PStr "SensitiveData:S3Object/Personal");
   ("actions_taken", PList actions_taken);
   ("timestamp", PStr "2024-05-01T12:00:00")].

(** A finding whose severity is a bare string, not an object. *)
Definition bare_severity : dict :=
  [("source", PStr "aws.macie2");
   ("detail", PDict [("id", PStr "f-2"); ("severity", PStr "HIGH")])].

(** A finding whose severity description is an explicit [null]. *)
Definition null_description : dict :=
  [("source", PStr "aws.macie2");
   ("detail", PDict [("id", PStr "f-3");
                     ("severity", PDict [("description", PNone)])])].

End Sample.
Export Sample.


(** ** Vocabulary of the statements *)
Module Observations.
Section Vocabulary.

Context `{!Builtins}.

(** The calls that go to the object store. *)
Definition is_s3_call (c : call) : bool :=
  match c with
  | CopyObject _ _ _ _ _ _ | PutObjectAcl _ _ _ | PutObjectTagging _ _ _ => true
  | _ => false
  end.

(** The calls that publish to the event bus. *)
Definition is_alert_call (c : call) : bool :=
  match c with
  | PutEvents _ _ _ _ => true
  | _ => false
  end.

(** [w'] is [w] after some calls, all of them to the object store. *)
Definition s3_step (w w' : world) : Prop :=
  ∃ cs, calls w' = calls w ++ cs ∧ forallb is_s3_call cs = true.

(** A call was answered without an exception. *)
Definition accepted (r : response) : bool :=
  match r with Fails _ => false | _ => true end.

(** The request [tag_object_with_pii_info] sends for a severity whose
    lower-case form is [lowered], at clock reading [now]. *)
Definition tagging_request (bucket_name object_key : pyval)
    (lowered : string) (now : datetime) : call :=
  PutObjectTagging bucket_name object_key
    [("TagSet",
      PList [PDict [("Key", PStr "pii-detected"); ("Value", PStr "true")];
             PDict [("Key", PStr "pii-severity"); ("Value", PStr lowered)];
             PDict [("Key", PStr "pii-detection-date");
                    ("Value", PStr (strftime_ymd now))];
             PDict [("Key", PStr "security-status"); ("Value", PStr "flagged")]])].

(** The bucket and key a resource descriptor is remediated under: it is an
    S3Object whose [bucketName] and [key] are both truthy. *)
Definition target (resource : pyval) : option (pyval * pyval) :=
  match resource with
  | PDict r =>
      if py_eq_str (dict_get_default r "resourceType" PNone) "S3Object" then
        match dict_get_default r "s3Object" (PDict []) with
        | PDict o =>
            let bucket_name := dict_get_default o "bucketName" PNone in
            let object_key := dict_get_default o "key" PNone in
            if truthy bucket_name && truthy object_key
            then Some (bucket_name, object_key)
            else None
        | _ => None
        end
      else None
  | _ => None
  end.

(** The shape the loop reads of a resource descriptor: an object, whose
    [s3Object], when present, is an object if the [resourceType] is
    S3Object.  The [s3Object] of a descriptor of another type is not
    read. *)
Definition resource_shaped (resource : pyval) : bool :=
  match resource with
  | PDict r =>
      if py_eq_str (dict_get_default r "resourceType" PNone) "S3Object" then
        match dict_get_default r "s3Object" (PDict []) with
        | PDict _ => true
        | _ => false
        end
      else true
  | _ => false
  end.

(** The shape [process_macie_finding] reads of an event: [detail], when
    present, is an object; in it [severity], when present, is an object,
    and [resources], when present, can be iterated and every item visited
    is a shaped descriptor.  These are the events on which
    [process_macie_finding] returns. *)
Definition event_shaped (event : dict) : bool :=
  match dict_get_default event "detail" (PDict []) with
  | PDict detail =>
      match dict_get_default detail "severity" (PDict []) with
      | PDict _ => true
      | _ => false
      end
      && match py_iter (dict_get_default detail "resources" (PList [])) with
         | Ok resources => forallb resource_shaped resources
         | Raise _ => false
         end
  | _ => false
  end.

(** The resources the loop of [process_macie_finding] visits. *)
Definition resources_of (event : dict) : res (list pyval) :=
  match py_get (dict_get_default event "detail" (PDict [])) "resources" (PList []) with
  | Ok affected_resources => py_iter affected_resources
  | Raise e => Raise e
  end.

(** The request [get_configuration] sends in the world [w]. *)
Definition config_request (w : world) : call :=
  GetParametersByPath
    ("/" +:+ default "media-processing-pipeline" (environ w !! "PROJECT_NAME")
     +:+ "/" +:+ default "dev" (environ w !! "ENVIRONMENT"))
    true true.

(** The text of the first log record of the handler. *)
Definition received (event : dict) : level * string :=
  (INFO, "Received event: " +:+ json_dumps (PDict event)).

(** [out] is a per-resource outcome for the bucket and key [bk]. *)
Definition outcome_for (bk : pyval * pyval) (out : pyval) : Prop :=
  ∃ d, out = PDict d
       ∧ dict_get d "bucket" = Some (fst bk)
       ∧ dict_get d "key" = Some (snd bk).

(** The dict [process_macie_finding] returns, by its fields. *)
Definition result_of (finding_id severity finding_type : pyval)
    (actions_taken : list pyval) (timestamp : string) : dict :=
  [("finding_id", finding_id);
   ("severity", severity);
   ("type", finding_type);
   ("actions_taken", PList actions_taken);
   ("timestamp", PStr timestamp)].

(** The request [send_high_severity_alert] sends for [result_of ...]. *)
Definition alert_request (finding_id severity finding_type : pyval)
    (actions_taken : list pyval) (timestamp : string) (now : datetime) : call :=
  PutEvents "media-processing-pipeline.security" "High Severity PII Detection"
    (json_dumps
       (PDict [("finding_id", finding_id);
               ("severity", severity);
               ("type", finding_type);
               ("actions_taken", PList actions_taken);
               ("alert_level", PStr "HIGH");
               ("timestamp", PStr timestamp)]))
    now.

End Vocabulary.
End Observations.
Export Observations.

(** ** The remediation, read off the answers of the object store *)
Module Remediation.
Section Vocabulary.

Context `{!Builtins}.

(** The answers of the object store, given the requests made so far, and
    the successive readings of the clock. *)
Variable answer : list call → call → response.
Variable reading : nat → datetime.

(** The request that copies the object [k] of the bucket [b] to its
    quarantine key, with the clock reading [now]. *)
Definition copy_request (b k : pyval) (now : datetime) : call :=
  CopyObject [("Bucket", b); ("Key", k)] b ("quarantine/" +:+ py_str k) "AES256"
    [("quarantine-reason", PStr "PII-detected");
     ("quarantine-timestamp", PStr (isoformat now));
     ("original-key", k)]
    "REPLACE".

(** The request that makes the quarantined copy private. *)
Definition acl_request (b k : pyval) : call :=
  PutObjectAcl b ("quarantine/" +:+ py_str k) "private".

(** The requests [cs] are sent one after the other, after the requests
    [history], as long as they are accepted: the requests that are sent, and
    the exception of the one that is refused, if any. *)
Fixpoint send_until_refused (history cs : list call) : list call * option exn :=
  match cs with
  | [] => ([], None)
  | c :: cs' =>
      match answer history c with
      | Fails e => ([c], Some e)
      | _ =>
          let '(sent, refusal) := send_until_refused (history ++ [c]) cs' in
          (c :: sent, refusal)
      end
  end.

(** What an action result holds: a success with the details of the action,
    or, when an exception stopped the action, a failure with the text of
    that exception. *)
Definition action_report (name : string) (details : dict) (stopped : option exn)
  : pyval :=
  PDict match stopped with
        | None => [("action", PStr name); ("status", PStr "success")] ++ details
        | Some e =>
            [("action", PStr name); ("status", PStr "failed");
             ("error", PStr (exn_str e))]
        end.

(** The quarantine of [k] in [b], started after the requests [history] at
    the clock reading number [tick]: its action result and the requests it
    sends.  It reads the clock once. *)
Definition quarantine_report (history : list call) (tick : nat) (b k : pyval)
  : pyval * list call :=
  let '(sent, refusal) :=
    send_until_refused history [copy_request b k (reading tick); acl_request b k] in
  (action_report "quarantine"
     [("quarantine_location",
       PStr (py_str b +:+ "/" +:+ "quarantine/" +:+ py_str k))]
     refusal,
   sent).

(** The tagging of [k] in [b] for the severity [sev]: its action result,
    the requests it sends and the number of the next clock reading.  A
    severity without a lower-case form stops it before the clock is read. *)
Definition tagging_report (history : list call) (tick : nat) (b k sev : pyval)
  : pyval * list call * nat :=
  match py_lower sev with
  | Raise e => (action_report "tag" [] (Some e), [], tick)
  | Ok lowered =>
      let '(sent, refusal) :=
        send_until_refused history [tagging_request b k lowered (reading tick)] in
      (action_report "tag"
         [("tags_applied",
           PDict [("pii-detected", PStr "true");
                  ("pii-severity", PStr lowered);
                  ("pii-detection-date", PStr (strftime_ymd (reading tick)));
                  ("security-status", PStr "flagged")])]
         refusal,
       sent, S tick)
  end.

(** The remediation of one object: its outcome, the requests it sends and
    the number of the next clock reading.  For HIGH or CRITICAL the
    quarantine comes first and the tagging follows whatever the quarantine
    reports; otherwise the tagging is alone. *)
Definition remediate (sev : pyval) (history : list call) (tick : nat)
    (bk : pyval * pyval) : pyval * list call * nat :=
  if py_in_strs sev ["HIGH"; "CRITICAL"] then
    let '(q, sent_q) := quarantine_report history tick (fst bk) (snd bk) in
    let '(t, sent_t, tick') :=
      tagging_report (history ++ sent_q) (S tick) (fst bk) (snd bk) sev in
    (PDict [("bucket", fst bk); ("key", snd bk); ("severity", sev);
            ("actions", PList [q; t])],
     sent_q ++ sent_t, tick')
  else
    let '(t, sent_t, tick') := tagging_report history tick (fst bk) (snd bk) sev in
    (PDict [("bucket", fst bk); ("key", snd bk); ("severity", sev);
            ("actions", PList [t])],
     sent_t, tick').

(** The remediation of the objects [targets], one after the other: the
    outcomes in that order, all the requests sent and the number of the
    next clock reading. *)
Fixpoint remediate_all (sev : pyval) (history : list call) (tick : nat)
    (targets : list (pyval * pyval)) : list pyval * list call * nat :=
  match targets with
  | [] => ([], [], tick)
  | bk :: targets' =>
      let '(out, sent, tick1) := remediate sev history tick bk in
      let '(outs, sent', tick2) :=
        remediate_all sev (history ++ sent) tick1 targets' in
      (out :: outs, sent ++ sent', tick2)
  end.

End Vocabulary.

(** [w'] is [w] after the requests [sent], with [tick] the number of its
    next clock reading. *)
Definition after (w w' : world) (sent : list call) (tick : nat) : Prop :=
  calls w' = calls w ++ sent
  ∧ ticks w' = tick
  ∧ respond w' = respond w
  ∧ clock w' = clock w.

End Remediation.
Export Remediation.

(** ** Vocabulary of the further properties *)

Module Coverage.
Section Vocabulary.
Context `{!Builtins}.

(** Two worlds that differ at most in what the event bus answers. *)
Definition same_but_bus (w1 w2 : world) : Prop :=
  environ w1 = environ w2
  ∧ clock w1 = clock w2
  ∧ calls w1 = calls w2
  ∧ ticks w1 = ticks w2
  ∧ logs w1 = logs w2
  ∧ ∀ history c, is_alert_call c = false → respond w1 history c = respond w2 history c.

(** A computation that does not see what the event bus answers. *)
Definition blind {A} (m : M A) : Prop :=
  ∀ w1 w2, same_but_bus w1 w2 →
    fst (m w1) = fst (m w2) ∧ same_but_bus (snd (m w1)) (snd (m w2)).

Definition blind_local {L A} (m : ST (L * world) A) : Prop :=
  ∀ l w1 w2, same_but_bus w1 w2 →
    fst (m (l, w1)) = fst (m (l, w2))
    ∧ fst (snd (m (l, w1))) = fst (snd (m (l, w2)))
    ∧ same_but_bus (snd (snd (m (l, w1)))) (snd (snd (m (l, w2)))).

(** The requests that set the tags of an object. *)
Definition is_tagging_call (c : call) : bool :=
  match c with
  | PutObjectTagging _ _ _ => true
  | _ => false
  end.

(** [c] is a request of the remediation of the object [k] of bucket [b]: a
    copy of that object to [quarantine/k] in the same bucket, a change of
    the ACL of that copy, or a tagging of the object itself. *)
Definition touches (b k : pyval) (c : call) : Prop :=
  match c with
  | CopyObject source bucket key _ _ _ =>
      source = [("Bucket", b); ("Key", k)]
      ∧ bucket = b ∧ key = "quarantine/" +:+ py_str k
  | PutObjectAcl bucket key _ => bucket = b ∧ key = "quarantine/" +:+ py_str k
  | PutObjectTagging bucket key _ => bucket = b ∧ key = k
  | _ => False
  end.

(** [c] is a request the remediation of [k] in [b] may make for the severity
    [sev]: any of the above when the severity is HIGH or CRITICAL, a tagging
    only otherwise. *)
Definition remediates (sev b k : pyval) (c : call) : Prop :=
  touches b k c
  ∧ (py_in_strs sev ["HIGH"; "CRITICAL"] = false → is_tagging_call c = true).

(** The [action] field of an action result. *)
Definition action_of (a : pyval) : option pyval :=
  match a with
  | PDict d => dict_get d "action"
  | _ => None
  end.

(** [out] is the outcome [handle_pii_in_s3_object] returns for the bucket
    and key [bk] at severity [sev]: the four fields and nothing else, with a
    quarantine and a tag action for HIGH or CRITICAL and a tag action alone
    otherwise. *)
Definition outcome_at (sev : pyval) (bk : pyval * pyval) (out : pyval) : Prop :=
  ∃ acts,
    out = PDict [("bucket", fst bk); ("key", snd bk); ("severity", sev);
                 ("actions", PList acts)]
    ∧ map action_of acts =
        if py_in_strs sev ["HIGH"; "CRITICAL"]
        then [Some (PStr "quarantine"); Some (PStr "tag")]
        else [Some (PStr "tag")].

(** [c] is a request of the remediation of a resource of [event] that has
    a target, allowed at the severity of the event. *)
Definition remediation_request (event : dict) (c : call) : Prop :=
  ∃ sev resources resource b k,
    extract_severity (dict_get_default event "detail" (PDict [])) = Ok sev
    ∧ resources_of event = Ok resources
    ∧ resource ∈ resources
    ∧ target resource = Some (b, k)
    ∧ remediates sev b k c.

(** The path [get_configuration] asks the parameter store for. *)
Definition parameter_prefix_of (w : world) : string :=
  "/" +:+ default "media-processing-pipeline" (environ w !! "PROJECT_NAME")
  +:+ "/" +:+ default "dev" (environ w !! "ENVIRONMENT").

(** [old] occurs in [s], at some position. *)
Fixpoint occurs (old s : string) : bool :=
  is_prefix old s
  || match s with
     | EmptyString => false
     | String _ s' => occurs old s'
     end.

(** The parameter [p] is named [prefix/key], with a key in which [prefix/]
    does not occur again. *)
Definition named_under (prefix : string) (p : parameter) : Prop :=
  ∃ key, Name p = prefix +:+ "/" +:+ key ∧ occurs (prefix +:+ "/") key = false.

(** The value of the last parameter of the page that has the name. *)
Definition last_value (name : string) (ps : list parameter) : option string :=
  Value <$> last (filter (λ p, Name p = name) ps).

(** [w'] is [w] after some calls, all of them satisfying [P]. *)
Definition adds (P : call → Prop) (w w' : world) : Prop :=
  ∃ cs, calls w' = calls w ++ cs ∧ Forall P cs.

End Vocabulary.
End Coverage.
Export Coverage.

(** More sample worlds and events. *)
Module MoreSamples.

(** A parameter store that holds the same name twice. *)
Definition two_hosts (history : list call) (c : call) : response :=
  match c with
  | GetParametersByPath _ _ _ =>
      Page [Param "/media-processing-pipeline/dev/db-host" "alpha";
            Param "/media-processing-pipeline/dev/alert-topic" "security";
            Param "/media-processing-pipeline/dev/db-host" "beta"]
  | _ => Done
  end.

(** A finding whose second resource is a number. *)
Definition number_among_resources : dict :=
  finding "HIGH" [a_csv; PInt 5].

End MoreSamples.
Export MoreSamples.

(** ** The validation script: src/scripts/validate.py *)
Module Validate.

(** The texts of the two type errors the script can meet, which differ
    between versions of the interpreter and are taken as given: the one of
    [s in v] for a value [v] that is no container, and the one of [v[s]] for
    a value [v] that takes no string subscript. *)
Class ErrorTexts : Type := {
  not_a_container : pyval → string;
  bad_subscript : pyval → string
}.

(** [s in v] for a string [s]: a key of a dict, an element of a list, a
    part of a string. *)
Definition contains `{ErrorTexts} (v : pyval) (s : string) : res bool :=
  match v with
  | PDict d => Ok (match dict_get d s with Some _ => true | None => false end)
  | PList xs => Ok (existsb (λ x, py_eq_str x s) xs)
  | PStr t => Ok (occurs s t)
  | _ => Raise (Exn "TypeError" (not_a_container v))
  end.

(** [v[s]] for a string [s]: only a dict takes it. *)
Definition subscript `{ErrorTexts} (v : pyval) (s : string) : res pyval :=
  match v with
  | PDict d => getitem d s
  | _ => Raise (Exn "TypeError" (bad_subscript v))
  end.

(** [[f x for x in xs]]: the first raise ends it. *)
Fixpoint comprehension {A B} (f : A → res B) (xs : list A) : res (list B) :=
  match xs with
  | [] => Ok []
  | x :: xs' =>
      match f x with
      | Ok y =>
          match comprehension f xs' with
          | Ok ys => Ok (y :: ys)
          | Raise e => Raise e
          end
      | Raise e => Raise e
      end
  end.

(** What the script runs in: the files it opens, read as text or as JSON (a
    read may raise), the console, which may refuse a line given the lines
    printed so far, and the lines printed so far, oldest first. *)
Record shell : Type := Shell {
  read_text : string → res string;
  load_json : string → res pyval;
  console : list string → string → option exn;
  stdout : list string
}.

Definition printed (line : string) (s : shell) : shell :=
  Shell (read_text s) (load_json s) (console s) (stdout s ++ [line]).

(** [print(line)] *)
Definition print (line : string) : ST shell unit := λ s,
  match console s (stdout s) line with
  | Some e => (Raise e, s)
  | None => (Ok (), printed line s)
  end.

(** [with open(path, 'r') as f: f.read()] *)
Definition read (path : string) : ST shell string := λ s, (read_text s path, s).

(** [with open(path, 'r') as f: json.load(f)] *)
Definition json_load (path : string) : ST shell pyval := λ s, (load_json s path, s).

(** [{'valid': valid, 'errors': errors}] *)
Definition verdict (valid : bool) (errors : list string) : dict :=
  [("valid", PBool valid); ("errors", PList (map PStr errors))].

Section Code.
Context `{!ErrorTexts}.

(** Lines 71-111. *)
Definition validate_lambda_code (lambda_path : string) : ST shell dict :=
  print "🔍 Validating Lambda function code...";;
  try_except
    (code ← read lambda_path;
     let required_imports := ["boto3"; "json"; "logging"] in
     let missing_imports :=
       List.filter (λ imp, negb (occurs ("import " +:+ imp) code)) required_imports in
     match missing_imports with
     | _ :: _ =>
         mret (verdict false (map (λ imp, "Missing import: " +:+ imp) missing_imports))
     | [] =>
         let required_functions :=
           ["lambda_handler"; "process_macie_finding"; "get_configuration"] in
         let missing_functions :=
           List.filter (λ func, negb (occurs ("def " +:+ func) code))
             required_functions in
         match missing_functions with
         | _ :: _ =>
             mret (verdict false
                     (map (λ func, "Missing function: " +:+ func) missing_functions))
         | [] =>
             print "✅ Lambda code validation passed";;
             mret (verdict true [])
         end
     end)
    (λ e, mret (verdict false ["Lambda code validation failed: " +:+ exn_str e])).

(** Lines 113-148. *)
Definition validate_bucket_policies (policy_path : string) : ST shell dict :=
  print "🔍 Validating S3 bucket policy...";;
  try_except
    (policy ← json_load policy_path;
     has_statement ← eval (contains policy "Statement");
     if negb has_statement then mret (verdict false ["Missing Statement in policy"])
     else
       statements ← eval (subscript policy "Statement");
       let required_sids :=
         ["DenyPublicRead"; "DenyInsecureConnections"; "AllowMacieAccess";
          "DenyUnencryptedObjectUploads"] in
       items ← eval (py_iter statements);
       statement_sids ← eval (comprehension (λ stmt, py_get stmt "Sid" PNone) items);
       let missing_sids :=
         List.filter (λ sid, negb (existsb (λ v, py_eq_str v sid) statement_sids))
           required_sids in
       match missing_sids with
       | _ :: _ =>
           mret (verdict false
                   (map (λ sid, "Missing security statement: " +:+ sid) missing_sids))
       | [] =>
           print "✅ S3 bucket policy validation passed";;
           mret (verdict true [])
       end)
    (λ e, mret (verdict false ["Bucket policy validation failed: " +:+ exn_str e])).

End Code.

(** *** Vocabulary of the statements about the script *)

Definition lambda_banner : string := "🔍 Validating Lambda function code...".
Definition lambda_passed : string := "✅ Lambda code validation passed".
Definition policy_banner : string := "🔍 Validating S3 bucket policy...".
Definition policy_passed : string := "✅ S3 bucket policy validation passed".

(** The six pieces of text [validate_lambda_code] looks for. *)
Definition required_fragments : list string :=
  ["import boto3"; "import json"; "import logging";
   "def lambda_handler"; "def process_macie_finding"; "def get_configuration"].

(** The imports and the functions [validate_lambda_code] misses in a text. *)
Definition missing_imports (code : string) : list string :=
  List.filter (λ imp, negb (occurs ("import " +:+ imp) code)) ["boto3"; "json"; "logging"].

Definition missing_functions (code : string) : list string :=
  List.filter (λ func, negb (occurs ("def " +:+ func) code))
    ["lambda_handler"; "process_macie_finding"; "get_configuration"].

(** The four statement ids [validate_bucket_policies] looks for. *)
Definition required_sids : list string :=
  ["DenyPublicRead"; "DenyInsecureConnections"; "AllowMacieAccess";
   "DenyUnencryptedObjectUploads"].

(** Some statement of the list has the [Sid]. *)
Definition has_sid (statements : list dict) (sid : string) : bool :=
  existsb (λ stmt, py_eq_str (dict_get_default stmt "Sid" PNone) sid) statements.

Definition is_dict (v : pyval) : bool :=
  match v with
  | PDict _ => true
  | _ => false
  end.

(** *** A sample interpreter and shell *)

(** The texts of CPython 3.12. *)
#[export] Instance cpython : ErrorTexts := {|
  not_a_container v := "argument of type '" +:+ type_name v +:+ "' is not iterable";
  bad_subscript v :=
    match v with
    | PList _ => "list indices must be integers or slices, not str"
    | PStr _ => "string indices must be integers, not 'str'"
    | _ => "'" +:+ type_name v +:+ "' object is not subscriptable"
    end
|}.

(** A shell in which every file reads as [text] and loads as [json], with a
    console that takes every line. *)
Definition a_shell (text : string) (json : pyval) : shell :=
  Shell (λ _, Ok text) (λ _, Ok json) (λ _ _, None) [].

(** A text in which the [boto3] import and two of the functions only occur
    in comments. *)
Definition commented_out : string :=
  "import json, logging  # import boto3
import logging
# def lambda_handler(event, context): ...
# def process_macie_finding(event, config): ...
def get_configuration():
    import json
    return {}
".

(** A text with one of the imports and one of the functions. *)
Definition json_only : string :=
  "import json
def lambda_handler(event, context):
    return json.dumps(event)
".

Definition statement (sid effect : string) : dict :=
  [("Sid", PStr sid); ("Effect", PStr effect)].

(** A policy with the four statement ids, each on a statement that
    allows. *)
Definition allow_all : pyval :=
  PDict [("Version", PStr "2012-10-17");
         ("Statement",
          PList [PDict (statement "AllowMacieAccess" "Allow");
                 PDict (statement "DenyPublicRead" "Allow");
                 PDict (statement "DenyUnencryptedObjectUploads" "Allow");
                 PDict (statement "DenyInsecureConnections" "Allow")])].

(** A policy with one of the four statements. *)
Definition only_public_read : pyval :=
  PDict [("Version", PStr "2012-10-17");
         ("Statement", PList [PDict (statement "DenyPublicRead" "Deny")])].

(** A policy whose [Statement] is one statement and not a list of them. *)
Definition single_statement : pyval :=
  PDict [("Version", PStr "2012-10-17");
         ("Statement", PDict (statement "DenyPublicRead" "Deny"))].

End Validate.
Export Validate.

Section Facts.
Context `{!Builtins}.

Lemma s3_step_refl w : s3_step w w.
Proof. exists []. by rewrite app_nil_r. Qed.

Lemma s3_step_trans w1 w2 w3 : s3_step w1 w2 → s3_step w2 w3 → s3_step w1 w3.
Proof.
  intros (cs & E1 & F1) (ds & E2 & F2). exists (cs ++ ds). split.
  - by rewrite E2, E1, app_assoc.
  - by rewrite forallb_app, F1, F2.
Qed.

Lemma s3_step_tick w w' : s3_step w w' → s3_step w (add_tick w').
Proof. done. Qed.

Lemma s3_step_log r w w' : s3_step w w' → s3_step w (add_log r w').
Proof. done. Qed.

Lemma s3_step_call c w w' :
  is_s3_call c = true → s3_step w w' → s3_step w (add_call c w').
Proof.
  intros Hc (cs & E & F). exists (cs ++ [c]). split.
  - cbn. by rewrite E, app_assoc.
  - rewrite forallb_app, F. cbn. by rewrite Hc.
Qed.

Ltac run :=
  unfold try_except, mbind, ST_bind, mret, ST_ret, eval, raise, client_call,
    utcnow, log, with_world, local_read, local_write, run_local; cbn.

Ltac answers :=
  repeat match goal with
    | |- context [respond ?w ?h ?c] =>
        let r := fresh "answer" in
        destruct (respond w h c) as [ | ? | ? ] eqn:r; cbn
    end.

Ltac s3_done :=
  repeat lazymatch goal with
    | |- s3_step _ (add_log _ _) => apply s3_step_log
    | |- s3_step _ (add_tick _) => apply s3_step_tick
    | |- s3_step _ (add_call _ _) => apply s3_step_call; [ reflexivity | ]
    | |- s3_step ?w ?w => apply s3_step_refl
    end.

(** [quarantine_object] returns whatever the object store answers. *)
Lemma quarantine_object_total b k cfg w :
  ∃ q w', quarantine_object b k cfg w = (Ok q, w')
          ∧ dict_get q "action" = Some (PStr "quarantine")
          ∧ s3_step w w'.
Proof.
  unfold quarantine_object. run.
  answers; do 2 eexists; (split; [ reflexivity | ]); (split; [ done | ]); s3_done.
Qed.

(** [tag_object_with_pii_info] returns whatever happens, and reports
    success exactly when the severity has a lower-case form and the object
    store accepts the tagging request. *)
Lemma tag_object_total b k sev w :
  ∃ t w', tag_object_with_pii_info b k sev w = (Ok t, w')
          ∧ dict_get t "action" = Some (PStr "tag")
          ∧ dict_get t "status" =
              Some (PStr (match py_lower sev with
                          | Ok lowered =>
                              if accepted
                                   (respond w (calls w)
                                      (tagging_request b k lowered (clock w (ticks w))))
                              then "success" else "failed"
                          | Raise _ => "failed"
                          end))
          ∧ s3_step w w'.
Proof.
  unfold tag_object_with_pii_info, tagging_request. run.
  destruct (py_lower sev) as [lowered | e]; cbn.
  - answers; do 2 eexists; (split; [ reflexivity | ]); repeat split; try done; s3_done.
  - do 2 eexists; (split; [ reflexivity | ]); repeat split; try done; s3_done.
Qed.

#[local] Arguments quarantine_object : simpl never.
#[local] Arguments py_in_strs : simpl never.
#[local] Arguments tag_object_with_pii_info : simpl never.

Lemma handle_high b k sev cfg w q w1 t w2 :
  py_in_strs sev ["HIGH"; "CRITICAL"] = true →
  quarantine_object b k cfg w = (Ok q, w1) →
  tag_object_with_pii_info b k sev w1 = (Ok t, w2) →
  handle_pii_in_s3_object b k sev cfg w =
    (Ok [("bucket", b); ("key", k); ("severity", sev);
         ("actions", PList [PDict q; PDict t])],
     add_log (INFO, "Handled PII in " +:+ py_str b +:+ "/" +:+ py_str k
                    +:+ " with severity " +:+ py_str sev) w2).
Proof.
  intros Hs Hq Ht. unfold handle_pii_in_s3_object. run.
  rewrite Hs. cbn. rewrite Hq. cbn. rewrite Ht. reflexivity.
Qed.

Lemma handle_low b k sev cfg w t w2 :
  py_in_strs sev ["HIGH"; "CRITICAL"] = false →
  tag_object_with_pii_info b k sev w = (Ok t, w2) →
  handle_pii_in_s3_object b k sev cfg w =
    (Ok [("bucket", b); ("key", k); ("severity", sev);
         ("actions", PList [PDict t])],
     add_log (INFO, "Handled PII in " +:+ py_str b +:+ "/" +:+ py_str k
                    +:+ " with severity " +:+ py_str sev) w2).
Proof.
  intros Hs Ht. unfold handle_pii_in_s3_object. run.
  rewrite Hs. cbn. rewrite Ht. reflexivity.
Qed.

Lemma handle_total b k sev cfg w :
  ∃ d w', handle_pii_in_s3_object b k sev cfg w = (Ok d, w')
          ∧ dict_get d "bucket" = Some b
          ∧ dict_get d "key" = Some k
          ∧ s3_step w w'.
Proof.
  destruct (py_in_strs sev ["HIGH"; "CRITICAL"]) eqn:Hs.
  - destruct (quarantine_object_total b k cfg w) as (q & w1 & Hq & _ & S1).
    destruct (tag_object_total b k sev w1) as (t & w2 & Ht & _ & _ & S2).
    do 2 eexists. split; [ by eapply handle_high | ].
    repeat split; try done. apply s3_step_log. by eapply s3_step_trans.
  - destruct (tag_object_total b k sev w) as (t & w2 & Ht & _ & _ & S2).
    do 2 eexists. split; [ by eapply handle_low | ].
    repeat split; done.
Qed.

#[local] Arguments handle_pii_in_s3_object : simpl never.

(** One turn of the loop: at most one outcome is appended, for the target
    of the resource; a raise means the descriptor is not shaped. *)
Lemma process_resource_run sev cfg resource fid ty ts acc w :
  match process_resource sev cfg resource (result_of fid sev ty acc ts, w) with
  | (Ok _, (r', w')) =>
      ∃ outs, r' = result_of fid sev ty (acc ++ outs) ts
              ∧ Forall2 outcome_for (option_list (target resource)) outs
              ∧ s3_step w w'
  | (Raise _, _) => resource_shaped resource = false
  end.
Proof.
  unfold process_resource, target, resource_shaped.
  destruct resource as [ | | | | | | r ]; try reflexivity. run.
  destruct (py_eq_str (dict_get_default r "resourceType" PNone) "S3Object");
    cbn.
  2: { exists []. rewrite app_nil_r. repeat split; [ constructor | apply s3_step_refl ]. }
  destruct (dict_get_default r "s3Object" (PDict [])) as [ | | | | | | o ];
    try reflexivity. cbn.
  destruct (truthy (dict_get_default o "bucketName" PNone)
            && truthy (dict_get_default o "key" PNone)); cbn.
  2: { exists []. rewrite app_nil_r. repeat split; [ constructor | apply s3_step_refl ]. }
  destruct (handle_total (dict_get_default o "bucketName" PNone)
              (dict_get_default o "key" PNone) sev cfg w)
    as (d & w' & Hh & Hb & Hk & Hs).
  rewrite Hh. cbn. exists [PDict d]. repeat split; [ | done ].
  repeat constructor. by exists d.
Qed.

#[local] Arguments process_resource : simpl never.

Lemma for_each_resources sev cfg resources : ∀ fid ty ts acc w,
  match for_each resources (process_resource sev cfg)
          (result_of fid sev ty acc ts, w) with
  | (Ok _, (r', w')) =>
      ∃ outs, r' = result_of fid sev ty (acc ++ outs) ts
              ∧ Forall2 outcome_for (omap target resources) outs
              ∧ s3_step w w'
  | (Raise _, _) => forallb resource_shaped resources = false
  end.
Proof.
  induction resources as [ | resource resources IH ]; intros; cbn.
  - exists []. rewrite app_nil_r. repeat split; [ constructor | apply s3_step_refl ].
  - unfold mbind, ST_bind.
    pose proof (process_resource_run sev cfg resource fid ty ts acc w) as Hr.
    destruct (process_resource sev cfg resource (result_of fid sev ty acc ts, w))
      as [[ [] | e ] [r1 w1]].
    2: { by rewrite Hr. }
    destruct Hr as (outs1 & -> & F1 & S1).
    specialize (IH fid ty ts (acc ++ outs1) w1).
    destruct (for_each resources (process_resource sev cfg)
                (result_of fid sev ty (acc ++ outs1) ts, w1))
      as [[ [] | e ] [r2 w2]].
    2: { rewrite IH. apply andb_false_r. }
    destruct IH as (outs2 & -> & F2 & S2).
    exists (outs1 ++ outs2). rewrite app_assoc. repeat split.
    + destruct (target resource); cbn in *.
      * inversion F1 as [ | ? ? ? ? Ho Hn ]; subst. inversion Hn; subst.
        by constructor.
      * by inversion F1; subst.
    + by eapply s3_step_trans.
Qed.

Lemma after_refl w : after w w [] (ticks w).
Proof. unfold after. by rewrite app_nil_r. Qed.

(** [quarantine_object], by the answers of the object store. *)
Lemma quarantine_object_exact b k cfg w :
  ∃ q w',
    quarantine_object b k cfg w = (Ok q, w')
    ∧ PDict q = fst (quarantine_report (respond w) (clock w) (calls w) (ticks w) b k)
    ∧ after w w' (snd (quarantine_report (respond w) (clock w) (calls w) (ticks w) b k))
        (S (ticks w)).
Proof.
  unfold quarantine_object, quarantine_report, after, copy_request, acl_request. run.
  answers; do 2 eexists; (split; [ reflexivity | ]); cbn;
    repeat split; by rewrite <- ?app_assoc.
Qed.

(** [tag_object_with_pii_info], by the answers of the object store. *)
Lemma tag_object_exact b k sev w :
  ∃ t w',
    tag_object_with_pii_info b k sev w = (Ok t, w')
    ∧ PDict t
      = fst (fst (tagging_report (respond w) (clock w) (calls w) (ticks w) b k sev))
    ∧ after w w'
        (snd (fst (tagging_report (respond w) (clock w) (calls w) (ticks w) b k sev)))
        (snd (tagging_report (respond w) (clock w) (calls w) (ticks w) b k sev)).
Proof.
  unfold tag_object_with_pii_info, tagging_report, after, tagging_request. run.
  destruct (py_lower sev) as [ lowered | e ]; cbn.
  - answers; do 2 eexists; (split; [ reflexivity | ]); cbn; repeat split; done.
  - do 2 eexists. split; [ reflexivity | ]. cbn. repeat split. by rewrite app_nil_r.
Qed.

(** [handle_pii_in_s3_object], by the answers of the object store. *)
Lemma handle_exact b k sev cfg w :
  ∃ d w',
    handle_pii_in_s3_object b k sev cfg w = (Ok d, w')
    ∧ PDict d
      = fst (fst (remediate (respond w) (clock w) sev (calls w) (ticks w) (b, k)))
    ∧ after w w'
        (snd (fst (remediate (respond w) (clock w) sev (calls w) (ticks w) (b, k))))
        (snd (remediate (respond w) (clock w) sev (calls w) (ticks w) (b, k))).
Proof.
  unfold remediate. cbn [fst snd].
  destruct (py_in_strs sev ["HIGH"; "CRITICAL"]) eqn:Hs.
  - destruct (quarantine_object_exact b k cfg w)
      as (q & wq & Eq & Hq & Hcq & Htq & Hrq & Hkq).
    destruct (tag_object_exact b k sev wq) as (t & wt & Et & Ht & Hct & Htt & Hrt & Hkt).
    rewrite Hrq, Hkq, Hcq, Htq in Ht, Hct, Htt.
    destruct (quarantine_report (respond w) (clock w) (calls w) (ticks w) b k)
      as [q' sent_q].
    cbn [fst snd] in *. subst q'.
    destruct (tagging_report (respond w) (clock w) (calls w ++ sent_q) (S (ticks w))
                b k sev) as [[t' sent_t] tick'].
    cbn [fst snd] in *. subst t'.
    do 2 eexists. split; [ by eapply handle_high | ].
    split; [ reflexivity | ].
    repeat split; cbn; [ by rewrite Hct, app_assoc | done | congruence | congruence ].
  - destruct (tag_object_exact b k sev w) as (t & wt & Et & Ht & Hct & Htt & Hrt & Hkt).
    destruct (tagging_report (respond w) (clock w) (calls w) (ticks w) b k sev)
      as [[t' sent_t] tick'].
    cbn [fst snd] in *. subst t'.
    do 2 eexists. split; [ by eapply handle_low | ].
    split; [ reflexivity | ]. by repeat split.
Qed.

(** The requests of a remediation go to the object store. *)
Lemma quarantine_report_s3 answer reading history tick b k :
  forallb is_s3_call (snd (quarantine_report answer reading history tick b k)) = true.
Proof.
  unfold quarantine_report. cbn.
  destruct (answer history _); cbn; try done;
    by destruct (answer (history ++ _) _).
Qed.

Lemma tagging_report_s3 answer reading history tick b k sev :
  forallb is_s3_call (snd (fst (tagging_report answer reading history tick b k sev)))
  = true.
Proof.
  unfold tagging_report. destruct (py_lower sev) as [ lowered | e ]; cbn; [ | done ].
  by destruct (answer history _).
Qed.

Lemma remediate_s3 answer reading sev history tick bk :
  forallb is_s3_call (snd (fst (remediate answer reading sev history tick bk))) = true.
Proof.
  unfold remediate.
  destruct (py_in_strs sev ["HIGH"; "CRITICAL"]).
  - pose proof (quarantine_report_s3 answer reading history tick (fst bk) (snd bk))
      as Hq.
    destruct (quarantine_report answer reading history tick (fst bk) (snd bk))
      as [q sent_q].
    pose proof (tagging_report_s3 answer reading (history ++ sent_q) (S tick)
                  (fst bk) (snd bk) sev) as Ht.
    destruct (tagging_report answer reading (history ++ sent_q) (S tick)
                (fst bk) (snd bk) sev) as [[t sent_t] tick'].
    cbn [fst snd] in *. by rewrite forallb_app, Hq, Ht.
  - pose proof (tagging_report_s3 answer reading history tick (fst bk) (snd bk) sev)
      as Ht.
    by destruct (tagging_report answer reading history tick (fst bk) (snd bk) sev)
      as [[t sent_t] tick'].
Qed.

Lemma remediate_all_s3 answer reading sev targets : ∀ history tick,
  forallb is_s3_call
    (snd (fst (remediate_all answer reading sev history tick targets))) = true.
Proof.
  induction targets as [ | bk targets IH ]; intros history tick; [ done | ].
  cbn [remediate_all].
  pose proof (remediate_s3 answer reading sev history tick bk) as H1.
  destruct (remediate answer reading sev history tick bk) as [[out sent] tick1].
  specialize (IH (history ++ sent) tick1).
  destruct (remediate_all answer reading sev (history ++ sent) tick1 targets)
    as [[outs sent'] tick2].
  cbn in *. by rewrite forallb_app, H1, IH.
Qed.

(** One turn of the loop, by the answers of the object store: a shaped
    descriptor gets the remediation of its target, if it has one; any other
    raises before anything is done. *)
Lemma process_resource_exact sev cfg resource fid ty ts acc w :
  match process_resource sev cfg resource (result_of fid sev ty acc ts, w) with
  | (Ok _, (r', w')) =>
      resource_shaped resource = true
      ∧ r' = result_of fid sev ty
               (acc ++ fst (fst (remediate_all (respond w) (clock w) sev (calls w)
                                   (ticks w) (option_list (target resource)))))
               ts
      ∧ after w w'
          (snd (fst (remediate_all (respond w) (clock w) sev (calls w) (ticks w)
                       (option_list (target resource)))))
          (snd (remediate_all (respond w) (clock w) sev (calls w) (ticks w)
                  (option_list (target resource))))
  | (Raise _, (_, w')) => resource_shaped resource = false ∧ w' = w
  end.
Proof.
  unfold process_resource, target, resource_shaped.
  destruct resource as [ | | | | | | r ]; try done. run.
  destruct (py_eq_str (dict_get_default r "resourceType" PNone) "S3Object"); cbn.
  2: { rewrite app_nil_r. repeat split. by rewrite app_nil_r. }
  destruct (dict_get_default r "s3Object" (PDict [])) as [ | | | | | | o ];
    try done. cbn.
  destruct (truthy (dict_get_default o "bucketName" PNone)
            && truthy (dict_get_default o "key" PNone)); cbn.
  2: { rewrite app_nil_r. repeat split. by rewrite app_nil_r. }
  destruct (handle_exact (dict_get_default o "bucketName" PNone)
              (dict_get_default o "key" PNone) sev cfg w)
    as (d & w' & Hh & Hd & Hc & Ht & Hr & Hk).
  rewrite Hh. cbn.
  destruct (remediate (respond w) (clock w) sev (calls w) (ticks w) _)
    as [[out sent] tick'].
  cbn in *. subst out. split; [ done | ]. split; [ done | ].
  repeat split; try done. by rewrite app_nil_r.
Qed.

(** The loop, by the answers of the object store.  It ends exactly when
    every descriptor is shaped; a raise leaves calls to the object store
    only. *)
Lemma for_each_exact sev cfg resources : ∀ fid ty ts acc w,
  match for_each resources (process_resource sev cfg)
          (result_of fid sev ty acc ts, w) with
  | (Ok _, (r', w')) =>
      forallb resource_shaped resources = true
      ∧ r' = result_of fid sev ty
               (acc ++ fst (fst (remediate_all (respond w) (clock w) sev (calls w)
                                   (ticks w) (omap target resources))))
               ts
      ∧ after w w'
          (snd (fst (remediate_all (respond w) (clock w) sev (calls w) (ticks w)
                       (omap target resources))))
          (snd (remediate_all (respond w) (clock w) sev (calls w) (ticks w)
                  (omap target resources)))
  | (Raise _, (_, w')) =>
      forallb resource_shaped resources = false ∧ s3_step w w'
  end.
Proof.
  induction resources as [ | resource resources IH ]; intros; cbn.
  - rewrite app_nil_r. repeat split. by rewrite app_nil_r.
  - unfold mbind, ST_bind.
    pose proof (process_resource_exact sev cfg resource fid ty ts acc w) as Hr.
    destruct (process_resource sev cfg resource (result_of fid sev ty acc ts, w))
      as [[ [] | e ] [r1 w1]].
    2: { destruct Hr as [-> ->]. split; [ done | apply s3_step_refl ]. }
    destruct Hr as (-> & -> & Hc1 & Ht1 & Hr1 & Hk1). cbn [andb].
    pose proof (remediate_all_s3 (respond w) (clock w) sev
                  (option_list (target resource)) (calls w) (ticks w)) as Hs1.
    destruct (target resource) as [ bk | ];
      [ change (option_list (Some bk)) with [bk] in *
      | change (option_list (@None (pyval * pyval))) with (@nil (pyval * pyval)) in * ];
      cbn [remediate_all] in *.
    + destruct (remediate (respond w) (clock w) sev (calls w) (ticks w) bk)
        as [[out sent] tick1].
      cbn [remediate_all fst snd] in *. rewrite app_nil_r in Hc1, Hs1.
      specialize (IH fid ty ts (acc ++ [out]) w1).
      rewrite Hr1, Hk1, Hc1, Ht1 in IH.
      pose proof (remediate_all_s3 (respond w) (clock w) sev (omap target resources)
                    (calls w ++ sent) tick1) as Hs2.
      destruct (for_each resources (process_resource sev cfg)
                  (result_of fid sev ty (acc ++ [out]) ts, w1))
        as [[ [] | e ] [r2 w2]].
      * destruct IH as (-> & -> & Hc2 & Ht2 & Hr2 & Hk2).
        destruct (remediate_all (respond w) (clock w) sev (calls w ++ sent) tick1
                    (omap target resources)) as [[outs sent'] tick2].
        cbn [fst snd] in *.
        split; [ done | ]. split; [ by rewrite <- app_assoc | ].
        repeat split; [ by rewrite Hc2, Hc1, app_assoc | done | congruence
                        | congruence ].
      * destruct IH as [-> (cs & Hcs & Fcs)]. split; [ done | ].
        exists (sent ++ cs). split; [ by rewrite Hcs, Hc1, app_assoc | ].
        by rewrite forallb_app, Hs1, Fcs.
    + cbn [fst snd] in *. rewrite app_nil_r in Hc1.
      specialize (IH fid ty ts acc w1). rewrite app_nil_r.
      rewrite Hr1, Hk1, Hc1, Ht1 in IH.
      destruct (for_each resources (process_resource sev cfg)
                  (result_of fid sev ty acc ts, w1)) as [[ [] | e ] [r2 w2]].
      * destruct IH as (-> & -> & Hc2 & Ht2 & Hr2 & Hk2).
        repeat split; try done; congruence.
      * destruct IH as [-> (cs & Hcs & Fcs)]. split; [ done | ].
        exists cs. split; [ congruence | done ].
Qed.

(** On the dict [process_macie_finding] builds, the alert is one request
    to the event bus, whatever the bus answers, and the dict stays as it
    is. *)
Lemma alert_on_result cfg fid sev ty acc ts w :
  ∃ w', send_high_severity_alert cfg (result_of fid sev ty acc ts, w)
        = (Ok (), (result_of fid sev ty acc ts, w'))
        ∧ calls w' = calls w
                     ++ [alert_request fid sev ty acc ts (clock w (ticks w))].
Proof.
  unfold send_high_severity_alert, alert_attempt, alert_request. run.
  answers; eexists; split; reflexivity.
Qed.

#[local] Arguments send_high_severity_alert : simpl never.
#[local] Arguments for_each : simpl never.

(** What a run of [process_macie_finding] amounts to: when it returns, the
    fields of the result, one outcome for each target in the order of the
    resources, calls to the object store only during the loop, and then
    the alert request if the severity asks for it; it raises only on an
    event that is not shaped. *)
Lemma process_macie_finding_run event cfg w :
  match process_macie_finding event cfg w with
  | (Ok r, w') =>
      ∃ fid sev ty resources outs wl,
        extract_severity (dict_get_default event "detail" (PDict [])) = Ok sev
        ∧ resources_of event = Ok resources
        ∧ r = result_of fid sev ty outs (isoformat (clock w (ticks w)))
        ∧ Forall2 outcome_for (omap target resources) outs
        ∧ s3_step w wl
        ∧ calls w' =
            calls wl
            ++ (if py_in_strs sev ["HIGH"; "CRITICAL"]
                then [alert_request fid sev ty outs
                        (isoformat (clock w (ticks w))) (clock wl (ticks wl))]
                else [])
  | (Raise _, _) => event_shaped event = false
  end.
Proof.
  unfold process_macie_finding, event_shaped, resources_of, extract_severity.
  destruct (dict_get_default event "detail" (PDict [])) as [ | | | | | | detail ];
    try reflexivity.
  run.
  destruct (dict_get_default detail "severity" (PDict [])) as [ | | | | | | severity ];
    try reflexivity.
  cbn.
  set (fid := dict_get_default detail "id" PNone).
  set (sev := dict_get_default severity "description" (PStr "UNKNOWN")).
  set (ty := dict_get_default detail "type" PNone).
  set (ts := isoformat (clock w (ticks w))).
  set (w0 := add_tick (add_log _ w)).
  destruct (py_iter (dict_get_default detail "resources" (PList [])))
    as [ resources | e ] eqn:Hiter; cbn.
  2: { done. }
  pose proof (for_each_resources sev cfg resources fid ty ts [] w0) as Hloop.
  fold (result_of fid sev ty [] ts).
  destruct (for_each resources (process_resource sev cfg)
              (result_of fid sev ty [] ts, w0)) as [[ [] | e ] [r1 w1]].
  2: { exact Hloop. }
  destruct Hloop as (outs & -> & Fo & S1). cbn in *.
  destruct (py_in_strs sev ["HIGH"; "CRITICAL"]) eqn:Hsev.
  - destruct (alert_on_result cfg fid sev ty outs ts w1) as (w2 & -> & Hc).
    cbn. exists fid, sev, ty, resources, outs, w1.
    rewrite Hsev. repeat split; done.
  - cbn. exists fid, sev, ty, resources, outs, w1.
    rewrite Hsev, app_nil_r. repeat split; done.
Qed.

(** A run of [process_macie_finding], by the answers of the object store:
    it returns exactly on the shaped events, with the outcomes of the
    remediation of the targets, after the requests of that remediation and
    then the alert request if the severity of the event asks for it; when
    it raises, the calls made went to the object store. *)
Lemma process_macie_finding_exact event cfg w :
  match process_macie_finding event cfg w with
  | (Ok r, w') =>
      event_shaped event = true
      ∧ ∃ fid sev ty resources,
          py_get (dict_get_default event "detail" (PDict [])) "id" PNone = Ok fid
          ∧ extract_severity (dict_get_default event "detail" (PDict [])) = Ok sev
          ∧ py_get (dict_get_default event "detail" (PDict [])) "type" PNone = Ok ty
          ∧ resources_of event = Ok resources
          ∧ let '(outs, requests, tick) :=
              remediate_all (respond w) (clock w) sev (calls w) (S (ticks w))
                (omap target resources) in
            r = result_of fid sev ty outs (isoformat (clock w (ticks w)))
            ∧ calls w' =
                calls w ++ requests
                ++ (if py_in_strs sev ["HIGH"; "CRITICAL"]
                    then [alert_request fid sev ty outs
                            (isoformat (clock w (ticks w))) (clock w tick)]
                    else [])
  | (Raise e, w') => event_shaped event = false ∧ s3_step w w'
  end.
Proof.
  unfold process_macie_finding, event_shaped, resources_of, extract_severity.
  destruct (dict_get_default event "detail" (PDict [])) as [ | | | | | | detail ];
    try (split; [ reflexivity | apply s3_step_refl ]).
  run.
  destruct (dict_get_default detail "severity" (PDict [])) as [ | | | | | | severity ];
    try (split; [ reflexivity | apply s3_step_refl ]).
  cbn.
  set (fid := dict_get_default detail "id" PNone).
  set (sev := dict_get_default severity "description" (PStr "UNKNOWN")).
  set (ty := dict_get_default detail "type" PNone).
  set (ts := isoformat (clock w (ticks w))).
  set (w0 := add_tick (add_log _ w)).
  destruct (py_iter (dict_get_default detail "resources" (PList [])))
    as [ resources | e ] eqn:Hiter; cbn.
  2: { split; [ done | exact (s3_step_refl w) ]. }
  pose proof (for_each_exact sev cfg resources fid ty ts [] w0) as Hloop.
  fold (result_of fid sev ty [] ts).
  destruct (for_each resources (process_resource sev cfg)
              (result_of fid sev ty [] ts, w0)) as [[ [] | e ] [r1 w1]].
  2: { destruct Hloop as [-> Hstep]. split; [ done | exact Hstep ]. }
  destruct Hloop as (-> & -> & Hc & Ht & Hr & Hk).
  change (calls w0) with (calls w) in *. change (ticks w0) with (S (ticks w)) in *.
  change (respond w0) with (respond w) in *. change (clock w0) with (clock w) in *.
  destruct (remediate_all (respond w) (clock w) sev (calls w) (S (ticks w))
              (omap target resources)) as [[outs requests] tick] eqn:Hall.
  cbn [fst snd app] in *.
  destruct (py_in_strs sev ["HIGH"; "CRITICAL"]) eqn:Hsev.
  - destruct (alert_on_result cfg fid sev ty outs ts w1) as (w2 & -> & Hc2).
    cbn. split; [ done | ]. exists fid, sev, ty, resources.
    do 4 (split; [ done | ]). rewrite Hall, Hsev. split; [ done | ].
    by rewrite Hc2, Hc, Hk, Ht, <- app_assoc.
  - cbn. split; [ done | ]. exists fid, sev, ty, resources.
    do 4 (split; [ done | ]). rewrite Hall, Hsev. split; [ done | ].
    by rewrite Hc, app_nil_r.
Qed.

(** [get_configuration] sends one request; what it returns or raises does
    not depend on the log. *)
Lemma get_configuration_calls w :
  calls (snd (get_configuration w)) = calls w ++ [config_request w]
  ∧ ticks (snd (get_configuration w)) = ticks w
  ∧ clock (snd (get_configuration w)) = clock w.
Proof.
  unfold get_configuration, config_request, environ_get. run.
  answers; unfold response_parameters; cbn; done.
Qed.

Lemma get_configuration_after_log r w :
  fst (get_configuration (add_log r w)) = fst (get_configuration w)
  ∧ calls (snd (get_configuration (add_log r w))) = calls w ++ [config_request w]
  ∧ ticks (snd (get_configuration (add_log r w))) = ticks w
  ∧ clock (snd (get_configuration (add_log r w))) = clock w.
Proof.
  unfold get_configuration, config_request, environ_get. run.
  answers; unfold response_parameters; cbn; done.
Qed.

Lemma get_configuration_raises_logs r w e :
  fst (get_configuration w) = Raise e →
  logs (snd (get_configuration (add_log r w))) =
    logs w ++ [r; (ERROR, "Failed to retrieve configuration: " +:+ exn_str e)].
Proof.
  unfold get_configuration, config_request, environ_get. run.
  answers; unfold response_parameters; cbn; intros; simplify_eq;
    by rewrite <- app_assoc.
Qed.

Lemma get_configuration_returns_logs r w cfg :
  fst (get_configuration w) = Ok cfg →
  logs (snd (get_configuration (add_log r w))) =
    logs w ++ [r; (INFO, "Retrieved " +:+ py_str (PInt (Z.of_nat (size cfg)))
                         +:+ " configuration parameters")].
Proof.
  unfold get_configuration, config_request, environ_get. run.
  answers; unfold response_parameters; cbn; intros; simplify_eq;
    by rewrite <- app_assoc.
Qed.

#[local] Arguments get_configuration : simpl never.

(** A failing configuration fetch decides the whole invocation. *)
Lemma handler_config_failure event context w e :
  fst (get_configuration w) = Raise e →
  ∃ w',
    (∀ engine,
       lambda_handler_with engine event context w =
         (Ok (Envelope 500
                (json_dumps
                   (PDict [("error", PStr "Event processing failed");
                           ("message", PStr (exn_str e));
                           ("timestamp", PStr (isoformat (clock w (ticks w))))]))),
          w'))
    ∧ calls w' = calls w ++ [config_request w]
    ∧ logs w' = logs w ++ [received event;
                           (ERROR, "Failed to retrieve configuration: " +:+ exn_str e);
                           (ERROR, "Error processing event: " +:+ exn_str e)].
Proof.
  intros He.
  destruct (get_configuration_after_log (received event) w) as (Hf & Hc & Ht & Hk).
  pose proof (get_configuration_raises_logs (received event) w e He) as Hl.
  rewrite He in Hf.
  destruct (get_configuration (add_log (received event) w)) as [r1 w1] eqn:Hg.
  cbn in *. subst r1.
  eexists. split; [ | split ].
  - intros engine. unfold lambda_handler_with. run.
    fold (received event). rewrite Hg. cbn. rewrite Ht, Hk. reflexivity.
  - done.
  - cbn. rewrite Hl. by rewrite <- app_assoc.
Qed.

(** An event of another source, once the configuration is fetched, is
    answered without the engine. *)
Lemma handler_other_source event context w cfg :
  py_eq_str (dict_get_default event "source" PNone) "aws.macie2" = false →
  fst (get_configuration w) = Ok cfg →
  ∃ w',
    (∀ engine,
       lambda_handler_with engine event context w =
         (Ok (Envelope 200
                (json_dumps
                   (PDict [("message", PStr "Event processed successfully");
                           ("result",
                            PDict [("processed", PBool false);
                                   ("reason", PStr "Unknown event source")]);
                           ("timestamp", PStr (isoformat (clock w (ticks w))))]))),
          w'))
    ∧ calls w' = calls w ++ [config_request w]
    ∧ logs w' =
        logs w ++ [received event;
                   (INFO, "Retrieved " +:+ py_str (PInt (Z.of_nat (size cfg)))
                          +:+ " configuration parameters");
                   (WARNING, "Unexpected event source: "
                             +:+ py_str (dict_get_default event "source" PNone))].
Proof.
  intros Hsrc Hcfg.
  destruct (get_configuration_after_log (received event) w) as (Hf & Hc & Ht & Hk).
  pose proof (get_configuration_returns_logs (received event) w cfg Hcfg) as Hl.
  rewrite Hcfg in Hf.
  destruct (get_configuration (add_log (received event) w)) as [r1 w1] eqn:Hg.
  cbn in *. subst r1.
  eexists. split; [ | split ].
  - intros engine. unfold lambda_handler_with. run.
    fold (received event). rewrite Hg. cbn. rewrite Hsrc. cbn.
    rewrite Ht, Hk. reflexivity.
  - done.
  - cbn. rewrite Hl. by rewrite <- app_assoc.
Qed.

Lemma length_append (s t : string) :
  String.length (s +:+ t) = (String.length s + String.length t)%nat.
Proof. induction s as [ | c s IH ]; simpl; [ done | by rewrite IH ]. Qed.

(** The handler answers with an envelope whatever the engine does. *)
Lemma lambda_handler_returns engine event context w :
  ∃ env, fst (lambda_handler_with engine event context w) = Ok env
         ∧ (statusCode env = 200 ∨ statusCode env = 500).
Proof.
  unfold lambda_handler_with. run.
  destruct (get_configuration (add_log _ w)) as [[ cfg | e ] w1]; cbn.
  2: { eexists. split; [ reflexivity | by right ]. }
  destruct (py_eq_str (dict_get_default event "source" PNone) "aws.macie2"); cbn.
  - destruct (engine event cfg w1) as [[ r | e ] w2]; cbn;
      eexists; (split; [ reflexivity | ]); [ by left | by right ].
  - eexists. split; [ reflexivity | by left ].
Qed.

(** The key of the quarantined copy is never the key of the original. *)
Lemma quarantine_key_fresh (k : string) : "quarantine/" +:+ k ≠ k.
Proof.
  intros E. apply (f_equal String.length) in E.
  rewrite length_append in E. simpl in E. lia.
Qed.


(** ** The claims *)

(** C1 (as amended): on every event that has the shape the code reads (see
    [event_shaped]; these are the events on which the function returns),
    with any configuration and whatever the object store and the event bus
    answer, [process_macie_finding] returns a result and does not raise.
    The result holds the id, severity and type of the finding and, in the
    order of the resources, one outcome for each resource that has a target
    (see [remediate_all]): the outcome holds the result of the quarantine, for
    HIGH or CRITICAL, and the result of the tagging, and a request that the
    object store refuses makes the result of its action a failure with the
    text of the exception (see [action_report]), without keeping the next
    action or the next resource from being handled. *)
Theorem process_returns_on_shaped_events event cfg w :
  event_shaped event = true →
  ∃ fid sev ty resources,
    py_get (dict_get_default event "detail" (PDict [])) "id" PNone = Ok fid
    ∧ extract_severity (dict_get_default event "detail" (PDict [])) = Ok sev
    ∧ py_get (dict_get_default event "detail" (PDict [])) "type" PNone = Ok ty
    ∧ resources_of event = Ok resources
    ∧ let '(outs, _, _) :=
        remediate_all (respond w) (clock w) sev (calls w) (S (ticks w))
          (omap target resources) in
      fst (process_macie_finding event cfg w) =
        Ok (result_of fid sev ty outs (isoformat (clock w (ticks w)))).
Proof.
  intros Hshape. pose proof (process_macie_finding_exact event cfg w) as Hrun.
  destruct (process_macie_finding event cfg w) as [[ r | e ] w'].
  2: { destruct Hrun as [Hrun _]. congruence. }
  destruct Hrun as (_ & fid & sev & ty & resources & Hfid & Hsev & Hty & Hres & Hrun).
  exists fid, sev, ty, resources. do 4 (split; [ done | ]).
  destruct (remediate_all (respond w) (clock w) sev (calls w) (S (ticks w))
              (omap target resources)) as [[outs requests] tick].
  destruct Hrun as [-> _]. reflexivity.
Qed.


(** A call to the object store is not a call to the event bus. *)
Lemma no_alert_among_s3_calls cs :
  forallb is_s3_call cs = true → filter (λ c, is_alert_call c = true) cs = [].
Proof.
  induction cs as [ | c cs IH ]; [ done | ]. intros Hcs. simpl in Hcs.
  apply andb_prop in Hcs as [Hc Hcs].
  rewrite filter_cons, (IH Hcs). case_decide; [ by destruct c | done ].
Qed.

(** C3 (as amended): on an event that has the shape the code reads,
    [process_macie_finding] sends the requests of the remediation of every
    target, all of them to the object store, and then one request to the
    event bus if the severity of the event is HIGH or CRITICAL, and nothing
    for any other severity: the alert is published exactly once in the first
    case and never in the second, after the remediation of all the
    resources, and it carries their outcomes.  On any other event the
    function raises and the calls made before went to the object store: no
    alert is published, whatever the severity. *)
Theorem alert_once_after_remediation event cfg w :
  if event_shaped event then
    ∃ fid sev ty resources,
      py_get (dict_get_default event "detail" (PDict [])) "id" PNone = Ok fid
      ∧ extract_severity (dict_get_default event "detail" (PDict [])) = Ok sev
      ∧ py_get (dict_get_default event "detail" (PDict [])) "type" PNone = Ok ty
      ∧ resources_of event = Ok resources
      ∧ let '(outs, requests, tick) :=
          remediate_all (respond w) (clock w) sev (calls w) (S (ticks w))
            (omap target resources) in
        let alerts :=
          if py_in_strs sev ["HIGH"; "CRITICAL"]
          then [alert_request fid sev ty outs (isoformat (clock w (ticks w)))
                  (clock w tick)]
          else [] in
        calls (snd (process_macie_finding event cfg w)) = calls w ++ requests ++ alerts
        ∧ forallb is_s3_call requests = true
        ∧ length (filter (λ c, is_alert_call c = true) (requests ++ alerts)) =
            if py_in_strs sev ["HIGH"; "CRITICAL"] then 1%nat else 0%nat
  else
    ∃ e new,
      fst (process_macie_finding event cfg w) = Raise e
      ∧ calls (snd (process_macie_finding event cfg w)) = calls w ++ new
      ∧ forallb is_s3_call new = true.
Proof.
  pose proof (process_macie_finding_exact event cfg w) as Hrun.
  destruct (process_macie_finding event cfg w) as [[ r | e ] w'].
  - destruct Hrun as (-> & fid & sev & ty & resources & Hfid & Hsev & Hty & Hres & Hrun).
    exists fid, sev, ty, resources. do 4 (split; [ done | ]).
    pose proof (remediate_all_s3 (respond w) (clock w) sev (omap target resources)
                  (calls w) (S (ticks w))) as Hs3.
    destruct (remediate_all (respond w) (clock w) sev (calls w) (S (ticks w))
                (omap target resources)) as [[outs requests] tick].
    cbn [fst snd] in *. destruct Hrun as [_ Hcalls].
    split; [ exact Hcalls | ]. split; [ exact Hs3 | ].
    rewrite filter_app, (no_alert_among_s3_calls requests Hs3).
    by destruct (py_in_strs sev ["HIGH"; "CRITICAL"]).
  - destruct Hrun as [-> (new & Hnew & Hs3)]. by exists e, new.
Qed.

(** C4: [quarantine_object], for a bucket and a key, sends a copy request
    from the object to the key prefixed with [quarantine/] in the same
    bucket, with AES256 encryption and the metadata replaced by the reason,
    the clock reading just taken and the original key; if the copy is
    accepted it then sets the ACL of the copy to private.  No other call
    is made and the key of the copy differs from the original key.  If
    both calls are accepted the result is a success with the location
    [bucket/quarantine/key]; otherwise it is a failure with the text of
    the exception. *)
Theorem quarantine_object_copies_then_restricts (bucket key : string) cfg w :
  let quarantine_key := "quarantine/" +:+ key in
  let copy :=
    CopyObject [("Bucket", PStr bucket); ("Key", PStr key)] (PStr bucket)
      quarantine_key "AES256"
      [("quarantine-reason", PStr "PII-detected");
       ("quarantine-timestamp", PStr (isoformat (clock w (ticks w))));
       ("original-key", PStr key)]
      "REPLACE" in
  let acl := PutObjectAcl (PStr bucket) quarantine_key "private" in
  let run := quarantine_object (PStr bucket) (PStr key) cfg w in
  quarantine_key ≠ key
  ∧ ticks (snd run) = S (ticks w)
  ∧ match respond w (calls w) copy with
    | Fails e =>
        calls (snd run) = calls w ++ [copy]
        ∧ fst run = Ok [("action", PStr "quarantine");
                        ("status", PStr "failed");
                        ("error", PStr (exn_str e))]
    | _ =>
        calls (snd run) = calls w ++ [copy; acl]
        ∧ match respond w (calls w ++ [copy]) acl with
          | Fails e =>
              fst run = Ok [("action", PStr "quarantine");
                            ("status", PStr "failed");
                            ("error", PStr (exn_str e))]
          | _ =>
              fst run = Ok [("action", PStr "quarantine");
                            ("status", PStr "success");
                            ("quarantine_location",
                             PStr (bucket +:+ "/quarantine/" +:+ key))]
          end
    end.
Proof.
  intros quarantine_key copy acl run.
  split; [ apply quarantine_key_fresh | ].
  subst run copy acl quarantine_key. unfold quarantine_object. run.
  answers; rewrite <- ?app_assoc; repeat split; done.
Qed.

(** The test of line 36 fails exactly when the source is not the tag. *)
Lemma source_mismatch (event : dict) :
  dict_get event "source" ≠ Some (PStr "aws.macie2") →
  py_eq_str (dict_get_default event "source" PNone) "aws.macie2" = false.
Proof.
  unfold dict_get_default. intros Hne.
  destruct (dict_get event "source") as [ [ | | | | s | | ] | ]; cbn; try done.
  destruct (String.eqb_spec s "aws.macie2"); [ subst; done | done ].
Qed.

(** C5 (as amended): for every event whose source is not [aws.macie2],
    provided the configuration fetch returns, the handler answers 200
    with the result [{processed: false, reason: "Unknown event source"}],
    and the run is the same whatever the engine is: it is not invoked. *)
Theorem unknown_source_yields_200_when_configured event context w cfg :
  dict_get event "source" ≠ Some (PStr "aws.macie2") →
  fst (get_configuration w) = Ok cfg →
  ∃ env w',
    (∀ engine, lambda_handler_with engine event context w = (Ok env, w'))
    ∧ statusCode env = 200
    ∧ body env =
        json_dumps
          (PDict [("message", PStr "Event processed successfully");
                  ("result",
                   PDict [("processed", PBool false);
                          ("reason", PStr "Unknown event source")]);
                  ("timestamp", PStr (isoformat (clock w (ticks w))))]).
Proof.
  intros Hsrc Hcfg.
  destruct (handler_other_source event context w cfg (source_mismatch _ Hsrc) Hcfg)
    as (w' & Hrun & _).
  eexists _, w'. split; [ exact Hrun | done ].
Qed.

(** C6: if the configuration fetch raises, the handler answers 500 with a
    body that carries a non-empty error text, the text of the exception
    and a timestamp; the only call made is the fetch, and the run is the
    same whatever the engine is: it is not invoked. *)
Theorem config_failure_yields_500 event context w e :
  fst (get_configuration w) = Raise e →
  ∃ env w' error_text,
    (∀ engine, lambda_handler_with engine event context w = (Ok env, w'))
    ∧ statusCode env = 500
    ∧ error_text ≠ ""
    ∧ body env =
        json_dumps
          (PDict [("error", PStr error_text);
                  ("message", PStr (exn_str e));
                  ("timestamp", PStr (isoformat (clock w (ticks w))))])
    ∧ calls w' = calls w ++ [config_request w].
Proof.
  intros He.
  destruct (handler_config_failure event context w e He) as (w' & Hrun & Hc & _).
  eexists _, w', "Event processing failed". split; [ exact Hrun | done ].
Qed.

(** C7: when [process_macie_finding] returns, [actions_taken] holds one
    outcome for each resource that has a target, for its bucket and key
    and in the order of the resources; a resource that is not an S3Object,
    or whose [s3Object] lacks [bucketName] or [key], has no target. *)
Theorem skipped_resources_leave_no_outcome event cfg w r :
  fst (process_macie_finding event cfg w) = Ok r →
  ∃ resources outs,
    resources_of event = Ok resources
    ∧ dict_get r "actions_taken" = Some (PList outs)
    ∧ Forall2 outcome_for (omap target resources) outs
    ∧ (∀ d, dict_get d "resourceType" ≠ Some (PStr "S3Object") →
            target (PDict d) = None)
    ∧ (∀ d, dict_get d "s3Object" = None → target (PDict d) = None)
    ∧ (∀ d o, dict_get d "s3Object" = Some (PDict o) →
              dict_get o "bucketName" = None ∨ dict_get o "key" = None →
              target (PDict d) = None).
Proof.
  intros Hr. pose proof (process_macie_finding_run event cfg w) as Hrun.
  destruct (process_macie_finding event cfg w) as [[ r' | e ] w']; [ | done ].
  cbn in Hr. simplify_eq.
  destruct Hrun as (fid & sev & ty & resources & outs & wl & _ & Hres & -> & Fo & _).
  exists resources, outs. repeat split; try done.
  - intros d Hd. unfold target, dict_get_default.
    destruct (dict_get d "resourceType") as [ [ | | | | s | | ] | ]; cbn; try done.
    destruct (String.eqb_spec s "S3Object"); [ subst; done | done ].
  - intros d Ho. unfold target, dict_get_default. rewrite Ho. cbn.
    by destruct (py_eq_str _ _).
  - intros d o Ho Hmiss. unfold target, dict_get_default. rewrite Ho. cbn.
    destruct (py_eq_str _ _); [ | done ].
    destruct Hmiss as [ -> | -> ]; cbn; [ done | by rewrite andb_false_r ].
Qed.

(** C8 (as amended): the severity is ['UNKNOWN'] when [detail] has no
    [severity], and when [severity] is an object with no [description];
    in both cases the extraction does not fail.  An extracted severity is
    null only when the payload gives [description] as an explicit null.
    The severity of the result is the extracted one. *)
Theorem severity_defaults_to_unknown :
  (∀ detail, dict_get detail "severity" = None →
             extract_severity (PDict detail) = Ok (PStr "UNKNOWN"))
  ∧ (∀ detail severity,
       dict_get detail "severity" = Some (PDict severity) →
       dict_get severity "description" = None →
       extract_severity (PDict detail) = Ok (PStr "UNKNOWN"))
  ∧ (∀ detail,
       extract_severity detail = Ok PNone →
       ∃ d severity,
         detail = PDict d
         ∧ dict_get d "severity" = Some (PDict severity)
         ∧ dict_get severity "description" = Some PNone)
  ∧ (∀ event cfg w r,
       fst (process_macie_finding event cfg w) = Ok r →
       ∃ sev,
         extract_severity (dict_get_default event "detail" (PDict [])) = Ok sev
         ∧ dict_get r "severity" = Some sev).
Proof.
  unfold extract_severity, py_get, dict_get_default. repeat split.
  - intros detail Hs. rewrite Hs. reflexivity.
  - intros detail severity Hs Hd. rewrite Hs. cbn. by rewrite Hd.
  - intros [ | | | | | | d ] Hx; try done.
    destruct (dict_get d "severity") as [ [ | | | | | | severity ] | ] eqn:Hs;
      try done.
    cbn in Hx.
    destruct (dict_get severity "description") as [ v | ] eqn:Hv; cbn in Hx;
      simplify_eq.
    by exists d, severity.
  - intros event cfg w r Hr.
    pose proof (process_macie_finding_run event cfg w) as Hrun.
    destruct (process_macie_finding event cfg w) as [[ r' | e ] w']; [ | done ].
    cbn in Hr. simplify_eq.
    destruct Hrun as (fid & sev & ty & resources & outs & wl & Hsev & _ & -> & _).
    exists sev. split; [ exact Hsev | reflexivity ].
Qed.

(** C9: on any result dict and in any world, [send_high_severity_alert]
    returns and leaves the dict as it is.  If its [try] block raises,
    while it builds the event or while it publishes it, the exception goes
    to the log as an error and not to the caller. *)
Theorem alert_failure_is_swallowed cfg result w :
  match alert_attempt cfg (result, w) with
  | (Ok _, (_, w1)) =>
      send_high_severity_alert cfg (result, w) = (Ok (), (result, w1))
  | (Raise e, (_, w1)) =>
      send_high_severity_alert cfg (result, w) =
        (Ok (),
         (result,
          add_log (ERROR, "Failed to send high severity alert: " +:+ exn_str e) w1))
  end.
Proof.
  unfold send_high_severity_alert, alert_attempt. run.
  destruct (getitem result "finding_id") eqn:Hf; cbn; [ | done ].
  destruct (getitem result "severity"); cbn; [ | done ].
  destruct (getitem result "type"); cbn; [ | done ].
  destruct (getitem result "actions_taken"); cbn; [ | done ].
  destruct (getitem result "timestamp"); cbn; [ | done ].
  answers; rewrite ?Hf; done.
Qed.

(** C10: the handler fetches the configuration before it looks at the
    source of the event.  For an event whose source is not [aws.macie2]:
    if the fetch raises, the answer is 500 and the log holds no warning
    about the source; if the fetch returns, the log record of the fetch
    comes before the warning about the source. *)
Theorem config_fetched_before_source_check event context w :
  dict_get event "source" ≠ Some (PStr "aws.macie2") →
  (∀ e, fst (get_configuration w) = Raise e →
        ∃ env w',
          lambda_handler event context w = (Ok env, w')
          ∧ statusCode env = 500
          ∧ logs w' =
              logs w
              ++ [received event;
                  (ERROR, "Failed to retrieve configuration: " +:+ exn_str e);
                  (ERROR, "Error processing event: " +:+ exn_str e)])
  ∧ (∀ cfg, fst (get_configuration w) = Ok cfg →
            ∃ env w',
              lambda_handler event context w = (Ok env, w')
              ∧ statusCode env = 200
              ∧ logs w' =
                  logs w
                  ++ [received event;
                      (INFO, "Retrieved " +:+ py_str (PInt (Z.of_nat (size cfg)))
                             +:+ " configuration parameters");
                      (WARNING, "Unexpected event source: "
                                +:+ py_str (dict_get_default event "source" PNone))]).
Proof.
  intros Hsrc. split.
  - intros e He.
    destruct (handler_config_failure event context w e He) as (w' & Hrun & _ & Hl).
    eexists _, w'. split; [ apply Hrun | done ].
  - intros cfg Hcfg.
    destruct (handler_other_source event context w cfg (source_mismatch _ Hsrc) Hcfg)
      as (w' & Hrun & _ & Hl).
    eexists _, w'. split; [ apply Hrun | done ].
Qed.

End Facts.

(** ** The claims on the sample events *)

(** The scenarios of the specification, run. *)
Example scenario_critical :
  fst (process_macie_finding (finding "CRITICAL" [a_csv]) ∅ (fresh all_up)) =
    Ok (finding_result "CRITICAL"
          [outcome "reports/a.csv" "CRITICAL"
             [quarantined "media/quarantine/reports/a.csv"; tagged "critical"]])
  ∧ map is_s3_call
      (calls (snd (process_macie_finding (finding "CRITICAL" [a_csv]) ∅
                     (fresh all_up))))
    = [true; true; true; false].
Proof. split; reflexivity. Qed.

Example scenario_low :
  fst (process_macie_finding (finding "LOW" [a_csv]) ∅ (fresh all_up)) =
    Ok (finding_result "LOW" [outcome "reports/a.csv" "LOW" [tagged "low"]])
  ∧ forallb is_s3_call
      (calls (snd (process_macie_finding (finding "LOW" [a_csv]) ∅ (fresh all_up))))
    = true.
Proof. split; reflexivity. Qed.

(** A refused copy does not keep the tagging from succeeding, and a refused
    tagging does not undo the quarantine. *)
Example quarantine_and_tag_are_independent :
  fst (handle_pii_in_s3_object (PStr "media") (PStr "reports/a.csv") (PStr "HIGH")
         ∅ (fresh copy_down)) =
    Ok [("bucket", PStr "media"); ("key", PStr "reports/a.csv");
        ("severity", PStr "HIGH");
        ("actions", PList [refused "quarantine"; tagged "high"])]
  ∧ fst (handle_pii_in_s3_object (PStr "media") (PStr "reports/a.csv") (PStr "HIGH")
           ∅ (fresh tagging_down)) =
      Ok [("bucket", PStr "media"); ("key", PStr "reports/a.csv");
          ("severity", PStr "HIGH");
          ("actions", PList [quarantined "media/quarantine/reports/a.csv";
                             refused "tag"])].
Proof. split; reflexivity. Qed.

(** An event bus that refuses the alert does not change the result, which
    is the one of [scenario_critical]; the refusal goes to the log. *)
Example alert_refused :
  fst (process_macie_finding (finding "CRITICAL" [a_csv]) ∅ (fresh bus_down)) =
    Ok (finding_result "CRITICAL"
          [outcome "reports/a.csv" "CRITICAL"
             [quarantined "media/quarantine/reports/a.csv"; tagged "critical"]])
  ∧ last (logs (snd (process_macie_finding (finding "CRITICAL" [a_csv]) ∅
                       (fresh bus_down)))) =
      Some (ERROR, "Failed to send high severity alert: event bus unreachable").
Proof. split; reflexivity. Qed.

(** The handler turns a raise of the engine into a 500. *)
Example bare_severity_answered_500 :
  fst (lambda_handler bare_severity PNone (fresh all_up)) =
    Ok (Envelope 500
          (json_dumps
             (PDict [("error", PStr "Event processing failed");
                     ("message", PStr "'str' object has no attribute 'get'");
                     ("timestamp", PStr "2024-05-01T12:00:00")]))).
Proof. reflexivity. Qed.

(** C1, the claim as stated fails: a finding whose [severity] is a string
    and not an object makes [process_macie_finding] raise. *)
Lemma process_raises_on_bare_severity :
  fst (process_macie_finding bare_severity ∅ (fresh all_up)) =
    Raise (Exn "AttributeError" "'str' object has no attribute 'get'").
Proof. reflexivity. Qed.

Lemma process_returns_on_shaped_events_witness :
  event_shaped (finding "CRITICAL" [a_csv; a_bucket; b_csv]) = true
  ∧ fst (process_macie_finding (finding "CRITICAL" [a_csv; a_bucket; b_csv]) ∅
           (fresh s3_down)) =
      Ok (finding_result "CRITICAL"
            [outcome "reports/a.csv" "CRITICAL" [refused "quarantine"; refused "tag"];
             outcome "reports/b.csv" "CRITICAL" [refused "quarantine"; refused "tag"]]).
Proof.
  split; [ reflexivity | ].
  destruct (process_returns_on_shaped_events
              (finding "CRITICAL" [a_csv; a_bucket; b_csv]) ∅ (fresh s3_down) eq_refl)
    as (fid & sev & ty & resources & Hfid & Hsev & Hty & Hres & Hrun).
  injection Hfid as <-. injection Hsev as <-. injection Hty as <-.
  injection Hres as <-. exact Hrun.
Defined.

(** C3, the claim as stated fails: a HIGH finding whose second resource is
    a number has its first resource remediated, then
    [process_macie_finding] raises, and no alert is published. *)
Lemma high_finding_raises_without_alert :
  extract_severity (dict_get_default number_among_resources "detail" (PDict []))
    = Ok (PStr "HIGH")
  ∧ fst (process_macie_finding number_among_resources ∅ (fresh all_up))
    = Raise (AttributeError (PInt 5) "get")
  ∧ map is_alert_call
      (calls (snd (process_macie_finding number_among_resources ∅ (fresh all_up))))
    = [false; false; false].
Proof. repeat split; reflexivity. Qed.

Lemma alert_once_after_remediation_witness :
  event_shaped (finding "CRITICAL" [a_csv; b_csv]) = true
  ∧ map is_alert_call
      (calls (snd (process_macie_finding (finding "CRITICAL" [a_csv; b_csv]) ∅
                     (fresh copy_down))))
    = [false; false; false; false; true].
Proof.
  split; [ reflexivity | ].
  destruct (alert_once_after_remediation (finding "CRITICAL" [a_csv; b_csv]) ∅
              (fresh copy_down))
    as (fid & sev & ty & resources & Hfid & Hsev & Hty & Hres & Hrun).
  injection Hfid as <-. injection Hsev as <-. injection Hty as <-.
  injection Hres as <-. destruct Hrun as (Hcalls & _ & _).
  rewrite Hcalls. reflexivity.
Defined.

(** C5, the claim as stated fails: with the parameter store down, an event
    of another source is answered 500. *)
Lemma unknown_source_yields_500_when_config_down :
  dict_get other_tool "source" = Some (PStr "other.tool")
  ∧ fst (lambda_handler other_tool PNone (fresh ssm_down)) =
      Ok (Envelope 500
            (json_dumps
               (PDict [("error", PStr "Event processing failed");
                       ("message", PStr "parameter store unreachable");
                       ("timestamp", PStr "2024-05-01T12:00:00")]))).
Proof. split; reflexivity. Qed.

Lemma unknown_source_yields_200_when_configured_witness :
  dict_get other_tool "source" ≠ Some (PStr "aws.macie2")
  ∧ fst (get_configuration (fresh all_up)) = Ok (<["alert-topic" := "security"]> ∅)
  ∧ ∃ env w',
      (∀ engine,
         lambda_handler_with engine other_tool PNone (fresh all_up) = (Ok env, w'))
      ∧ statusCode env = 200
      ∧ body env =
          json_dumps
            (PDict [("message", PStr "Event processed successfully");
                    ("result",
                     PDict [("processed", PBool false);
                            ("reason", PStr "Unknown event source")]);
                    ("timestamp",
                     PStr (isoformat (clock (fresh all_up) (ticks (fresh all_up)))))]).
Proof.
  split; [ done | ]. split; [ reflexivity | ].
  apply (unknown_source_yields_200_when_configured other_tool PNone (fresh all_up)
           (<["alert-topic" := "security"]> ∅)); [ done | reflexivity ].
Defined.

Lemma config_failure_yields_500_witness :
  fst (get_configuration (fresh ssm_down)) =
    Raise (Exn "ClientError" "parameter store unreachable")
  ∧ ∃ env w' error_text,
      (∀ engine,
         lambda_handler_with engine (finding "HIGH" [a_csv]) PNone (fresh ssm_down)
         = (Ok env, w'))
      ∧ statusCode env = 500
      ∧ error_text ≠ ""
      ∧ body env =
          json_dumps
            (PDict [("error", PStr error_text);
                    ("message", PStr "parameter store unreachable");
                    ("timestamp",
                     PStr (isoformat (clock (fresh ssm_down) (ticks (fresh ssm_down)))))])
      ∧ calls w' = calls (fresh ssm_down) ++ [config_request (fresh ssm_down)].
Proof.
  split; [ reflexivity | ].
  apply (config_failure_yields_500 (finding "HIGH" [a_csv]) PNone (fresh ssm_down)
           (Exn "ClientError" "parameter store unreachable")).
  reflexivity.
Defined.

Lemma skipped_resources_leave_no_outcome_witness :
  fst (process_macie_finding (finding "LOW" [a_csv; a_bucket; keyless; b_csv]) ∅
         (fresh all_up)) =
    Ok (finding_result "LOW"
          [outcome "reports/a.csv" "LOW" [tagged "low"];
           outcome "reports/b.csv" "LOW" [tagged "low"]])
  ∧ ∃ resources outs,
      resources_of (finding "LOW" [a_csv; a_bucket; keyless; b_csv]) = Ok resources
      ∧ dict_get
          (finding_result "LOW"
             [outcome "reports/a.csv" "LOW" [tagged "low"];
              outcome "reports/b.csv" "LOW" [tagged "low"]])
          "actions_taken" = Some (PList outs)
      ∧ Forall2 outcome_for (omap target resources) outs
      ∧ (∀ d, dict_get d "resourceType" ≠ Some (PStr "S3Object") →
              target (PDict d) = None)
      ∧ (∀ d, dict_get d "s3Object" = None → target (PDict d) = None)
      ∧ (∀ d o, dict_get d "s3Object" = Some (PDict o) →
                dict_get o "bucketName" = None ∨ dict_get o "key" = None →
                target (PDict d) = None).
Proof.
  split; [ reflexivity | ].
  apply (skipped_resources_leave_no_outcome
           (finding "LOW" [a_csv; a_bucket; keyless; b_csv]) ∅ (fresh all_up)).
  reflexivity.
Defined.

(** C8, the claim as stated fails: a description that is an explicit null
    gives a result whose severity is null. *)
Lemma severity_null_on_null_description :
  fst (process_macie_finding null_description ∅ (fresh all_up)) =
    Ok [("finding_id", PStr "f-3");
        ("severity", PNone);
        ("type", PNone);
        ("actions_taken", PList []);
        ("timestamp", PStr "2024-05-01T12:00:00")].
Proof. reflexivity. Qed.

Lemma severity_defaults_to_unknown_witness :
  dict_get [("id", PStr "f-4")] "severity" = None
  ∧ extract_severity (PDict [("id", PStr "f-4")]) = Ok (PStr "UNKNOWN").
Proof.
  split; [ reflexivity | ].
  apply (proj1 severity_defaults_to_unknown [("id", PStr "f-4")]).
  reflexivity.
Defined.

Lemma config_fetched_before_source_check_witness :
  dict_get other_tool "source" ≠ Some (PStr "aws.macie2")
  ∧ fst (get_configuration (fresh ssm_down)) =
      Raise (Exn "ClientError" "parameter store unreachable")
  ∧ ∃ env w',
      lambda_handler other_tool PNone (fresh ssm_down) = (Ok env, w')
      ∧ statusCode env = 500
      ∧ logs w' =
          logs (fresh ssm_down)
          ++ [received other_tool;
              (ERROR, "Failed to retrieve configuration: "
                      +:+ "parameter store unreachable");
              (ERROR, "Error processing event: " +:+ "parameter store unreachable")].
Proof.
  split; [ done | ]. split; [ reflexivity | ].
  apply (proj1 (config_fetched_before_source_check other_tool PNone (fresh ssm_down)
                  ltac:(done))
           (Exn "ClientError" "parameter store unreachable")).
  reflexivity.
Defined.

(** ** Further properties of the processor *)

Section MoreFacts.
Context `{!Builtins}.

Ltac run :=
  unfold try_except, mbind, ST_bind, mret, ST_ret, eval, raise, client_call,
    utcnow, log, with_world, local_read, local_write, run_local; cbn.

Ltac answers :=
  repeat match goal with
    | |- context [respond ?w ?h ?c] =>
        let r := fresh "answer" in
        destruct (respond w h c) as [ | ? | ? ] eqn:r; cbn
    end.

Lemma adds_refl P w : adds P w w.
Proof. exists []. by rewrite app_nil_r. Qed.

Lemma adds_trans P w1 w2 w3 : adds P w1 w2 → adds P w2 w3 → adds P w1 w3.
Proof.
  intros (cs & E1 & F1) (ds & E2 & F2). exists (cs ++ ds). split.
  - by rewrite E2, E1, app_assoc.
  - by apply Forall_app.
Qed.

Lemma adds_weaken (P Q : call → Prop) w w' :
  (∀ c, P c → Q c) → adds P w w' → adds Q w w'.
Proof.
  intros HPQ (cs & E & F). exists cs. split; [ done | ].
  by eapply Forall_impl.
Qed.

Lemma adds_tick P w w' : adds P w w' → adds P w (add_tick w').
Proof. done. Qed.

Lemma adds_log P r w w' : adds P w w' → adds P w (add_log r w').
Proof. done. Qed.

Lemma adds_call (P : call → Prop) c w w' :
  P c → adds P w w' → adds P w (add_call c w').
Proof.
  intros Hc (cs & E & F). exists (cs ++ [c]). split.
  - cbn. by rewrite E, app_assoc.
  - apply Forall_app. split; [ done | by constructor ].
Qed.

Ltac added :=
  repeat lazymatch goal with
    | |- adds _ _ (add_log _ _) => apply adds_log
    | |- adds _ _ (add_tick _) => apply adds_tick
    | |- adds _ _ (add_call _ _) => apply adds_call; [ by repeat split | ]
    | |- adds _ ?w ?w => apply adds_refl
    end.

Lemma quarantine_object_adds b k cfg w :
  adds (touches b k) w (snd (quarantine_object b k cfg w)).
Proof. unfold quarantine_object. run. answers; added. Qed.

Lemma tag_object_adds b k sev w :
  adds (λ c, touches b k c ∧ is_tagging_call c = true) w
    (snd (tag_object_with_pii_info b k sev w)).
Proof.
  unfold tag_object_with_pii_info. run.
  destruct (py_lower sev); cbn; answers; added.
Qed.

Lemma handle_adds b k sev cfg w :
  adds (remediates sev b k) w (snd (handle_pii_in_s3_object b k sev cfg w)).
Proof.
  pose proof (quarantine_object_adds b k cfg w) as Hq.
  destruct (quarantine_object_total b k cfg w) as (q & wq & Eq & _).
  rewrite Eq in Hq. cbn in Hq.
  destruct (py_in_strs sev ["HIGH"; "CRITICAL"]) eqn:Hs.
  - pose proof (tag_object_adds b k sev wq) as Ht.
    destruct (tag_object_total b k sev wq) as (t & wt & Et & _).
    rewrite Et in Ht. cbn in Ht.
    rewrite (handle_high b k sev cfg w q wq t wt Hs Eq Et). cbn.
    apply adds_log. eapply adds_trans.
    + eapply adds_weaken; [ | exact Hq ]. intros c Hc. split; [ done | ].
      by rewrite Hs.
    + eapply adds_weaken; [ | exact Ht ]. by intros c [Hc Hg].
  - pose proof (tag_object_adds b k sev w) as Ht.
    destruct (tag_object_total b k sev w) as (t & wt & Et & _).
    rewrite Et in Ht. cbn in Ht.
    rewrite (handle_low b k sev cfg w t wt Hs Et). cbn.
    apply adds_log. eapply adds_weaken; [ | exact Ht ]. by intros c [Hc Hg].
Qed.

(** The requests a turn of the loop makes are for the target of its
    resource, whether the turn ends or raises. *)
Lemma process_resource_adds sev cfg resource l w :
  adds (λ c, ∃ b k, target resource = Some (b, k) ∧ remediates sev b k c) w
    (snd (snd (process_resource sev cfg resource (l, w)))).
Proof.
  unfold process_resource, target.
  destruct resource as [ | | | | | | r ]; try apply adds_refl. run.
  destruct (py_eq_str (dict_get_default r "resourceType" PNone) "S3Object");
    cbn; [ | apply adds_refl ].
  destruct (dict_get_default r "s3Object" (PDict [])) as [ | | | | | | o ];
    try apply adds_refl. cbn.
  destruct (truthy (dict_get_default o "bucketName" PNone)
            && truthy (dict_get_default o "key" PNone)); cbn; [ | apply adds_refl ].
  pose proof (handle_adds (dict_get_default o "bucketName" PNone)
                (dict_get_default o "key" PNone) sev cfg w) as Hh.
  destruct (handle_pii_in_s3_object _ _ sev cfg w) as [[ d | e ] w']; cbn in *.
  - destruct (list_append l "actions_taken" (PDict d)); cbn;
      (eapply adds_weaken; [ | exact Hh ]); intros c Hc; by eexists _, _.
  - eapply adds_weaken; [ | exact Hh ]. intros c Hc. by eexists _, _.
Qed.

Lemma for_each_adds sev cfg resources : ∀ l w,
  adds (λ c, ∃ resource b k, resource ∈ resources
                             ∧ target resource = Some (b, k)
                             ∧ remediates sev b k c) w
    (snd (snd (for_each resources (process_resource sev cfg) (l, w)))).
Proof.
  induction resources as [ | resource resources IH ]; intros l w; cbn.
  - apply adds_refl.
  - unfold mbind, ST_bind.
    pose proof (process_resource_adds sev cfg resource l w) as H1.
    destruct (process_resource sev cfg resource (l, w)) as [[ [] | e ] [l1 w1]];
      cbn in H1.
    + eapply adds_trans.
      * eapply adds_weaken; [ | exact H1 ]. intros c (b & k & Ht & Hc).
        exists resource, b, k. split; [ by left | done ].
      * eapply adds_weaken; [ | apply IH ]. intros c (r & b & k & Hin & Ht & Hc).
        exists r, b, k. split; [ by right | done ].
    + cbn. eapply adds_weaken; [ | exact H1 ]. intros c (b & k & Ht & Hc).
      exists resource, b, k. split; [ by left | done ].
Qed.

Lemma handle_outcome b k sev cfg w :
  ∃ d, fst (handle_pii_in_s3_object b k sev cfg w) = Ok d
       ∧ outcome_at sev (b, k) (PDict d).
Proof.
  unfold outcome_at.
  destruct (py_in_strs sev ["HIGH"; "CRITICAL"]) eqn:Hs.
  - destruct (quarantine_object_total b k cfg w) as (q & wq & Eq & Hq & _).
    destruct (tag_object_total b k sev wq) as (t & wt & Et & Ht & _).
    rewrite (handle_high b k sev cfg w q wq t wt Hs Eq Et). cbn.
    eexists. split; [ reflexivity | ]. eexists. split; [ reflexivity | ].
    cbn. by rewrite Hq, Ht.
  - destruct (tag_object_total b k sev w) as (t & wt & Et & Ht & _).
    rewrite (handle_low b k sev cfg w t wt Hs Et). cbn.
    eexists. split; [ reflexivity | ]. eexists. split; [ reflexivity | ].
    cbn. by rewrite Ht.
Qed.

(** One turn of the loop, by its result: the outcome of the target is
    appended, and a raise is a failed [get]. *)
Lemma process_resource_outcome sev cfg resource fid ty ts acc w :
  match process_resource sev cfg resource (result_of fid sev ty acc ts, w) with
  | (Ok _, (r', _)) =>
      ∃ outs, r' = result_of fid sev ty (acc ++ outs) ts
              ∧ Forall2 (outcome_at sev) (option_list (target resource)) outs
  | (Raise e, _) => ∃ v, e = AttributeError v "get"
  end.
Proof.
  unfold process_resource, target.
  destruct resource as [ | | | | | | r ]; try by eexists. run.
  destruct (py_eq_str (dict_get_default r "resourceType" PNone) "S3Object");
    cbn.
  2: { exists []. rewrite app_nil_r. split; [ done | constructor ]. }
  destruct (dict_get_default r "s3Object" (PDict [])) as [ | | | | | | o ];
    try by eexists. cbn.
  destruct (truthy (dict_get_default o "bucketName" PNone)
            && truthy (dict_get_default o "key" PNone)); cbn.
  2: { exists []. rewrite app_nil_r. split; [ done | constructor ]. }
  destruct (handle_outcome (dict_get_default o "bucketName" PNone)
              (dict_get_default o "key" PNone) sev cfg w) as (d & Hd & Ho).
  destruct (handle_pii_in_s3_object _ _ sev cfg w) as [rd w']. cbn in Hd.
  subst rd. cbn. exists [PDict d]. split; [ done | ]. by repeat constructor.
Qed.

Lemma for_each_outcomes sev cfg resources : ∀ fid ty ts acc w,
  match for_each resources (process_resource sev cfg)
          (result_of fid sev ty acc ts, w) with
  | (Ok _, (r', _)) =>
      ∃ outs, r' = result_of fid sev ty (acc ++ outs) ts
              ∧ Forall2 (outcome_at sev) (omap target resources) outs
  | (Raise e, _) => ∃ v, e = AttributeError v "get"
  end.
Proof.
  induction resources as [ | resource resources IH ]; intros; cbn.
  - exists []. rewrite app_nil_r. split; [ done | constructor ].
  - unfold mbind, ST_bind.
    pose proof (process_resource_outcome sev cfg resource fid ty ts acc w) as Hr.
    destruct (process_resource sev cfg resource (result_of fid sev ty acc ts, w))
      as [[ [] | e ] [r1 w1]]; [ | done ].
    destruct Hr as (outs1 & -> & F1).
    specialize (IH fid ty ts (acc ++ outs1) w1).
    destruct (for_each resources (process_resource sev cfg)
                (result_of fid sev ty (acc ++ outs1) ts, w1))
      as [[ [] | e ] [r2 w2]]; [ | done ].
    destruct IH as (outs2 & -> & F2).
    exists (outs1 ++ outs2). rewrite app_assoc. split; [ done | ].
    destruct (target resource); cbn in *.
    + inversion F1 as [ | ? ? ? ? Ho Hn ]; subst. inversion Hn; subst.
      by constructor.
    + by inversion F1; subst.
Qed.

#[local] Arguments send_high_severity_alert : simpl never.
#[local] Arguments for_each : simpl never.
#[local] Arguments process_resource : simpl never.
#[local] Arguments py_in_strs : simpl never.

(** A run of [process_macie_finding], by its result, its calls and the
    exception it may raise. *)
Lemma process_macie_finding_trace event cfg w :
  match process_macie_finding event cfg w with
  | (Ok r, w') =>
      ∃ fid sev ty resources outs wl,
        py_get (dict_get_default event "detail" (PDict [])) "id" PNone = Ok fid
        ∧ extract_severity (dict_get_default event "detail" (PDict [])) = Ok sev
        ∧ py_get (dict_get_default event "detail" (PDict [])) "type" PNone = Ok ty
        ∧ resources_of event = Ok resources
        ∧ r = result_of fid sev ty outs (isoformat (clock w (ticks w)))
        ∧ Forall2 (outcome_at sev) (omap target resources) outs
        ∧ adds (remediation_request event) w wl
        ∧ calls w' =
            calls wl
            ++ (if py_in_strs sev ["HIGH"; "CRITICAL"]
                then [alert_request fid sev ty outs
                        (isoformat (clock w (ticks w))) (clock wl (ticks wl))]
                else [])
  | (Raise e, w') =>
      (∃ v, e = AttributeError v "get" ∨ e = TypeError_not_iterable v)
      ∧ adds (remediation_request event) w w'
  end.
Proof.
  unfold process_macie_finding, remediation_request, resources_of,
    extract_severity.
  destruct (dict_get_default event "detail" (PDict [])) as [ | | | | | | detail ];
    try (split; [ eexists; by left | apply adds_refl ]).
  run.
  destruct (dict_get_default detail "severity" (PDict [])) as [ | | | | | | severity ];
    try (split; [ eexists; by left | apply adds_refl ]).
  cbn.
  set (fid := dict_get_default detail "id" PNone).
  set (sev := dict_get_default severity "description" (PStr "UNKNOWN")).
  set (ty := dict_get_default detail "type" PNone).
  set (ts := isoformat (clock w (ticks w))).
  set (w0 := add_tick (add_log _ w)).
  destruct (py_iter (dict_get_default detail "resources" (PList [])))
    as [ resources | e ] eqn:Hiter; cbn.
  2: { split; [ | exact (adds_refl _ w) ].
       destruct (dict_get_default detail "resources" (PList []));
         cbn in Hiter; simplify_eq; eexists; by right. }
  pose proof (for_each_outcomes sev cfg resources fid ty ts [] w0) as Hout.
  pose proof (for_each_adds sev cfg resources (result_of fid sev ty [] ts) w0)
    as Hadd.
  fold (result_of fid sev ty [] ts).
  destruct (for_each resources (process_resource sev cfg)
              (result_of fid sev ty [] ts, w0)) as [[ [] | e ] [r1 w1]];
    cbn in Hadd.
  2: { split; [ destruct Hout as [v ->]; eexists; by left | ].
       eapply adds_weaken; [ | exact Hadd ].
       intros c (r & b & k & Hin & Ht & Hc). by exists sev, resources, r, b, k. }
  destruct Hout as (outs & -> & Fo). cbn in *.
  assert (adds
            (λ c, ∃ sev0 resources0 resource b k,
                    Ok sev = Ok sev0 ∧ Ok resources = Ok resources0
                    ∧ resource ∈ resources0 ∧ target resource = Some (b, k)
                    ∧ remediates sev0 b k c) w w1) as Hadd'.
  { eapply adds_weaken; [ | exact Hadd ].
    intros c (r & b & k & Hin & Ht & Hc). by exists sev, resources, r, b, k. }
  destruct (py_in_strs sev ["HIGH"; "CRITICAL"]) eqn:Hsev.
  - destruct (alert_on_result cfg fid sev ty outs ts w1) as (w2 & -> & Hc).
    cbn. exists fid, sev, ty, resources, outs, w1. rewrite Hsev.
    repeat split; done.
  - cbn. exists fid, sev, ty, resources, outs, w1. rewrite Hsev, app_nil_r.
    repeat split; done.
Qed.

Lemma blind_ret {A} (a : A) : blind (mret a).
Proof. by intros w1 w2 Hw. Qed.

Lemma blind_eval {A} (r : res A) : blind (eval r).
Proof. by intros w1 w2 Hw. Qed.

Lemma blind_bind {A B} (m : M A) (f : A → M B) :
  blind m → (∀ a, blind (f a)) → blind (m ≫= f).
Proof.
  intros Hm Hf w1 w2 Hw. destruct (Hm w1 w2 Hw) as [Hr Hs].
  unfold mbind, ST_bind.
  destruct (m w1) as [r1 s1], (m w2) as [r2 s2]. cbn in *. subst r2.
  destruct r1 as [ a | e ]; [ by apply Hf | done ].
Qed.

Lemma blind_try {A} (body : M A) (handler : exn → M A) :
  blind body → (∀ e, blind (handler e)) → blind (try_except body handler).
Proof.
  intros Hm Hf w1 w2 Hw. destruct (Hm w1 w2 Hw) as [Hr Hs].
  unfold try_except.
  destruct (body w1) as [r1 s1], (body w2) as [r2 s2]. cbn in *. subst r2.
  destruct r1 as [ a | e ]; [ done | by apply Hf ].
Qed.

Lemma blind_log lvl msg : blind (log lvl msg).
Proof.
  intros w1 w2 (He & Hk & Hc & Ht & Hl & Hr). unfold log, same_but_bus. cbn.
  by rewrite Hl.
Qed.

Lemma blind_utcnow : blind utcnow.
Proof.
  intros w1 w2 (He & Hk & Hc & Ht & Hl & Hr). unfold utcnow, same_but_bus. cbn.
  by rewrite Hk, Ht.
Qed.

Lemma blind_call c : is_alert_call c = false → blind (client_call c).
Proof.
  intros Hcall w1 w2 (He & Hk & Hc & Ht & Hl & Hr). unfold client_call.
  rewrite (Hr _ _ Hcall), Hc.
  destruct (respond w2 (calls w2) c); unfold same_but_bus; cbn; by rewrite Hc.
Qed.

Lemma blind_environ_get k d : blind (environ_get k d).
Proof.
  intros w1 w2 Hw. pose proof Hw as (He & _). unfold environ_get. cbn.
  by rewrite He.
Qed.

Lemma blind_local_ret {L A} (a : A) : blind_local (L := L) (mret a).
Proof. by intros l w1 w2 Hw. Qed.

Lemma blind_local_eval {L A} (r : res A) : blind_local (L := L) (eval r).
Proof. by intros l w1 w2 Hw. Qed.

Lemma blind_local_read {L A} (f : L → res A) : blind_local (local_read f).
Proof. by intros l w1 w2 Hw. Qed.

Lemma blind_local_write {L} (f : L → res L) : blind_local (local_write f).
Proof.
  intros l w1 w2 Hw. unfold local_write. cbn. by destruct (f l).
Qed.

Lemma blind_with_world {L A} (m : M A) : blind m → blind_local (L := L) (with_world m).
Proof.
  intros Hm l w1 w2 Hw. destruct (Hm w1 w2 Hw) as [Hr Hs]. unfold with_world. cbn.
  by destruct (m w1), (m w2).
Qed.

Lemma blind_local_bind {L A B} (m : ST (L * world) A) (f : A → ST (L * world) B) :
  blind_local m → (∀ a, blind_local (f a)) → blind_local (m ≫= f).
Proof.
  intros Hm Hf l w1 w2 Hw. destruct (Hm l w1 w2 Hw) as (Hr & Hl & Hs).
  unfold mbind, ST_bind.
  destruct (m (l, w1)) as [r1 [l1 s1]], (m (l, w2)) as [r2 [l2 s2]].
  cbn in *. subst r2 l2.
  destruct r1 as [ a | e ]; [ by apply Hf | done ].
Qed.

Lemma blind_local_try {L A} (body : ST (L * world) A) handler :
  blind_local body → (∀ e, blind_local (handler e)) →
  blind_local (try_except body handler).
Proof.
  intros Hm Hf l w1 w2 Hw. destruct (Hm l w1 w2 Hw) as (Hr & Hl & Hs).
  unfold try_except.
  destruct (body (l, w1)) as [r1 [l1 s1]], (body (l, w2)) as [r2 [l2 s2]].
  cbn in *. subst r2 l2.
  destruct r1 as [ a | e ]; [ done | by apply Hf ].
Qed.

Lemma blind_run_local {L A} (l0 : L) (m : ST (L * world) A) :
  blind_local m → blind (run_local l0 m).
Proof.
  intros Hm w1 w2 Hw. destruct (Hm l0 w1 w2 Hw) as (Hr & Hl & Hs). unfold run_local.
  by destruct (m (l0, w1)) as [r1 [l1 s1]], (m (l0, w2)) as [r2 [l2 s2]].
Qed.

Lemma blind_for_each {L A} (xs : list A) (body : A → ST (L * world) unit) :
  (∀ x, blind_local (body x)) → blind_local (for_each xs body).
Proof.
  intros Hb. induction xs as [ | x xs IH ]; cbn.
  - apply blind_local_ret.
  - apply blind_local_bind; [ apply Hb | done ].
Qed.

Ltac blindness :=
  repeat first
    [ apply blind_ret | apply blind_eval | apply blind_log | apply blind_utcnow
    | apply blind_environ_get
    | apply blind_call; reflexivity
    | apply blind_bind; [ | intros ? ]
    | apply blind_try; [ | intros ? ]
    | apply blind_run_local
    | apply blind_local_ret | apply blind_local_eval | apply blind_local_read
    | apply blind_local_write
    | apply blind_with_world
    | apply blind_local_bind; [ | intros ? ]
    | apply blind_local_try; [ | intros ? ]
    | match goal with |- context [if ?b then _ else _] => destruct b end ].

Lemma blind_quarantine_object b k cfg : blind (quarantine_object b k cfg).
Proof. unfold quarantine_object. blindness. Qed.

Lemma blind_tag_object b k sev : blind (tag_object_with_pii_info b k sev).
Proof. unfold tag_object_with_pii_info. blindness. Qed.

Lemma blind_handle b k sev cfg : blind (handle_pii_in_s3_object b k sev cfg).
Proof.
  unfold handle_pii_in_s3_object. blindness.
  all: try apply blind_quarantine_object; try apply blind_tag_object.
Qed.

Lemma blind_process_resource sev cfg resource :
  blind_local (process_resource sev cfg resource).
Proof.
  unfold process_resource. blindness. all: apply blind_handle.
Qed.

(** The alert returns and leaves the dict it runs on as it is. *)
Lemma alert_returns cfg result w :
  ∃ w', send_high_severity_alert cfg (result, w) = (Ok (), (result, w')).
Proof.
  unfold send_high_severity_alert, alert_attempt. run.
  destruct (getitem result "finding_id") eqn:Hf; cbn; [ | by eexists ].
  destruct (getitem result "severity"); cbn; [ | by eexists ].
  destruct (getitem result "type"); cbn; [ | by eexists ].
  destruct (getitem result "actions_taken"); cbn; [ | by eexists ].
  destruct (getitem result "timestamp"); cbn; [ | by eexists ].
  destruct (respond w (calls w) _); cbn; rewrite ?Hf; by eexists.
Qed.

Lemma same_result_bind {A B} (m : M A) (f : A → M B) :
  blind m →
  (∀ a w1 w2, same_but_bus w1 w2 → fst (f a w1) = fst (f a w2)) →
  ∀ w1 w2, same_but_bus w1 w2 → fst ((m ≫= f) w1) = fst ((m ≫= f) w2).
Proof.
  intros Hm Hf w1 w2 Hw. destruct (Hm w1 w2 Hw) as [Hr Hs].
  unfold mbind, ST_bind.
  destruct (m w1) as [r1 s1], (m w2) as [r2 s2]. cbn in *. subst r2.
  destruct r1 as [ a | e ]; [ by apply Hf | done ].
Qed.

Lemma same_result_local_bind {L A B} (m : ST (L * world) A)
    (f : A → ST (L * world) B) :
  blind_local m →
  (∀ a l w1 w2, same_but_bus w1 w2 → fst (f a (l, w1)) = fst (f a (l, w2))) →
  ∀ l w1 w2, same_but_bus w1 w2 →
    fst ((m ≫= f) (l, w1)) = fst ((m ≫= f) (l, w2)).
Proof.
  intros Hm Hf l w1 w2 Hw. destruct (Hm l w1 w2 Hw) as (Hr & Hl & Hs).
  unfold mbind, ST_bind.
  destruct (m (l, w1)) as [r1 [l1 s1]], (m (l, w2)) as [r2 [l2 s2]].
  cbn in *. subst r2 l2.
  destruct r1 as [ a | e ]; [ by apply Hf | done ].
Qed.

(** X12: the result of [process_macie_finding], returned or raised, is
    the same in two worlds that differ only in what the event bus
    answers. *)
Theorem result_does_not_depend_on_event_bus event cfg w1 w2 :
  same_but_bus w1 w2 →
  fst (process_macie_finding event cfg w1) = fst (process_macie_finding event cfg w2).
Proof.
  revert w1 w2. unfold process_macie_finding.
  apply same_result_bind; [ apply blind_eval | intros fid ].
  apply same_result_bind; [ apply blind_eval | intros sev ].
  apply same_result_bind; [ apply blind_eval | intros ty ].
  apply same_result_bind; [ apply blind_log | intros [] ].
  apply same_result_bind; [ apply blind_eval | intros affected ].
  apply same_result_bind; [ apply blind_utcnow | intros now ].
  intros w1 w2 Hw. unfold run_local.
  set (result := [("finding_id", fid); _; _; _; _]).
  match goal with
  | |- fst (let '(_, _) := ?t (_, _) in _) = _ =>
      assert (fst (t (result, w1)) = fst (t (result, w2))) as Hsame
  end.
  { revert Hw. generalize result. intros l Hw. revert l w1 w2 Hw.
    apply same_result_local_bind; [ apply blind_local_eval | intros resources ].
    apply same_result_local_bind;
      [ apply blind_for_each, blind_process_resource | intros [] ].
    intros l w1 w2 _. unfold mbind, ST_bind.
    destruct (py_in_strs sev ["HIGH"; "CRITICAL"]); [ | done ].
    destruct (alert_returns cfg l w1) as (s1 & ->).
    by destruct (alert_returns cfg l w2) as (s2 & ->). }
  match type of Hsame with
  | fst ?a = fst ?b => destruct a as [r1 s1], b as [r2 s2]
  end.
  exact Hsame.
Qed.

(** X1: [tag_object_with_pii_info] never raises.  For a severity that is a
    string it reads the clock once and sends one request, which sets on the
    object itself (the original key) the four tags [pii-detected],
    [pii-severity] (the severity in lower case), [pii-detection-date] and
    [security-status]; the result is a success with the tags applied if
    the request is accepted and a failure with the text of the exception if
    not.  For any other severity it sends nothing and reads no clock: the
    result is a failure with the text of the attribute error. *)
Theorem tag_object_sends_one_request b k sev w :
  match py_lower sev with
  | Ok lowered =>
      let request := tagging_request b k lowered (clock w (ticks w)) in
      calls (snd (tag_object_with_pii_info b k sev w)) = calls w ++ [request]
      ∧ ticks (snd (tag_object_with_pii_info b k sev w)) = S (ticks w)
      ∧ fst (tag_object_with_pii_info b k sev w) =
          match respond w (calls w) request with
          | Fails e =>
              Ok [("action", PStr "tag");
                  ("status", PStr "failed");
                  ("error", PStr (exn_str e))]
          | _ =>
              Ok [("action", PStr "tag");
                  ("status", PStr "success");
                  ("tags_applied",
                   PDict [("pii-detected", PStr "true");
                          ("pii-severity", PStr lowered);
                          ("pii-detection-date",
                           PStr (strftime_ymd (clock w (ticks w))));
                          ("security-status", PStr "flagged")])]
          end
  | Raise e =>
      calls (snd (tag_object_with_pii_info b k sev w)) = calls w
      ∧ ticks (snd (tag_object_with_pii_info b k sev w)) = ticks w
      ∧ fst (tag_object_with_pii_info b k sev w) =
          Ok [("action", PStr "tag");
              ("status", PStr "failed");
              ("error", PStr (exn_str e))]
  end.
Proof.
  unfold tag_object_with_pii_info, tagging_request. run.
  destruct (py_lower sev) as [ lowered | e ]; cbn; [ | done ].
  answers; done.
Qed.

#[local] Arguments str_replace : simpl never.

Lemma config_size (f : parameter → string) ps : ∀ (m : gmap string string),
  (size (foldl (λ m p, <[f p := Value p]> m) m ps) ≤ size m + length ps)%nat.
Proof.
  induction ps as [ | p ps IH ]; intros m; cbn; [ lia | ].
  etransitivity; [ apply IH | ].
  rewrite map_size_insert. destruct (m !! f p); unfold id; lia.
Qed.

(** X3: [get_configuration] sends exactly one request, for the path
    [/PROJECT_NAME/ENVIRONMENT] (by default
    [/media-processing-pipeline/dev]), recursive and with decryption.  An
    exception of the parameter store reaches the caller unchanged, after an
    error record in the log; a response without [Parameters] raises a
    [KeyError]; otherwise the configuration holds at most as many entries as
    the page has parameters and their number is logged. *)
Theorem get_configuration_asks_once w :
  let request := GetParametersByPath (parameter_prefix_of w) true true in
  calls (snd (get_configuration w)) = calls w ++ [request]
  ∧ match respond w (calls w) request with
    | Fails e =>
        fst (get_configuration w) = Raise e
        ∧ logs (snd (get_configuration w)) =
            logs w ++ [(ERROR, "Failed to retrieve configuration: " +:+ exn_str e)]
    | Done =>
        fst (get_configuration w) = Raise (KeyError "Parameters")
        ∧ logs (snd (get_configuration w)) =
            logs w ++ [(ERROR, "Failed to retrieve configuration: 'Parameters'")]
    | Page ps =>
        ∃ cfg, fst (get_configuration w) = Ok cfg
               ∧ (size cfg ≤ length ps)%nat
               ∧ logs (snd (get_configuration w)) =
                   logs w ++ [(INFO, "Retrieved "
                                     +:+ py_str (PInt (Z.of_nat (size cfg)))
                                     +:+ " configuration parameters")]
    end.
Proof.
  unfold get_configuration, parameter_prefix_of, environ_get. run.
  answers; unfold response_parameters; cbn; (split; [ done | ]); try done.
  eexists. split; [ reflexivity | ]. split; [ | done ].
  etransitivity; [ apply (config_size (λ p, str_replace _ "" (Name p))) | ].
  by rewrite map_size_empty.
Qed.

Lemma append_assoc (a b c : string) : (a +:+ b) +:+ c = a +:+ (b +:+ c).
Proof.
  induction a as [ | x a IH ]; [ done | ].
  change (String x ((a +:+ b) +:+ c) = String x (a +:+ (b +:+ c))).
  by rewrite IH.
Qed.

Lemma append_inj_r (p a b : string) : p +:+ a = p +:+ b → a = b.
Proof.
  induction p as [ | x p IH ]; [ done | ].
  change (String x (p +:+ a) = String x (p +:+ b) → a = b).
  intros E. apply IH. by simplify_eq.
Qed.

Lemma is_prefix_append old k : is_prefix old (old +:+ k) = true.
Proof.
  induction old as [ | c old IH ]; [ done | ].
  change (String c old +:+ k) with (String c (old +:+ k)).
  cbn [is_prefix]. by rewrite Ascii.eqb_refl.
Qed.

Lemma str_replace_from_skip old new t k :
  str_replace_from old new (t +:+ k) (String.length t) = str_replace_from old new k 0.
Proof.
  induction t as [ | c t IH ]; [ done | ].
  change (String c t +:+ k) with (String c (t +:+ k)). by cbn.
Qed.

(** [replace] takes a leading occurrence away. *)
Lemma str_replace_strips old new k :
  old ≠ "" → str_replace old new (old +:+ k) = new +:+ str_replace old new k.
Proof.
  intros Hold. unfold str_replace. destruct old as [ | c old ]; [ done | ].
  change (String c old +:+ k) with (String c (old +:+ k)).
  cbn [str_replace_from].
  change (String c (old +:+ k)) with (String c old +:+ k).
  rewrite is_prefix_append. cbn [String.length]. rewrite Nat.sub_1_r. cbn [Nat.pred].
  by rewrite str_replace_from_skip.
Qed.

(** [replace] leaves a string without occurrence as it is. *)
Lemma str_replace_absent old new s :
  occurs old s = false → str_replace old new s = s.
Proof.
  unfold str_replace. induction s as [ | c s IH ]; [ done | ].
  cbn [occurs str_replace_from]. intros Ho.
  apply orb_false_elim in Ho as [-> Ho]. by rewrite (IH Ho).
Qed.

Lemma strip_named prefix p key :
  Name p = prefix +:+ "/" +:+ key →
  occurs (prefix +:+ "/") key = false →
  str_replace (prefix +:+ "/") "" (Name p) = key.
Proof.
  intros -> Ho. rewrite <- append_assoc, str_replace_strips.
  - by rewrite str_replace_absent.
  - by destruct prefix.
Qed.

Lemma config_lookup prefix ps :
  Forall (named_under prefix) ps →
  ∀ key, occurs (prefix +:+ "/") key = false →
    foldl (λ (m : gmap string string) p,
             <[str_replace (prefix +:+ "/") "" (Name p) := Value p]> m) ∅ ps
      !! key
    = last_value (prefix +:+ "/" +:+ key) ps.
Proof.
  unfold last_value.
  induction ps as [ | p ps IH ] using rev_ind; intros Hps key Hkey; [ done | ].
  rewrite Forall_app, Forall_singleton in Hps.
  destruct Hps as (Hps & kp & Hname & Hfree).
  rewrite foldl_snoc, filter_app, (strip_named prefix p kp Hname Hfree).
  destruct (decide (kp = key)) as [ -> | Hne ].
  - rewrite lookup_insert_eq.
    rewrite (filter_cons_True _ p []) by done.
    by rewrite filter_nil, last_snoc.
  - rewrite lookup_insert_ne by done.
    rewrite (filter_cons_False _ p []), filter_nil, app_nil_r; [ by apply IH | ].
    rewrite Hname. intros E. apply Hne. apply append_inj_r in E.
    by apply (append_inj_r "/") in E.
Qed.

(** X4: when every parameter of the page is named [prefix/key], with a key
    in which [prefix/] does not occur again, the configuration maps each
    key to the value of the last parameter of that name: the prefix is
    dropped and a later parameter overrides an earlier one. *)
Theorem configuration_keys_drop_the_prefix w ps :
  respond w (calls w) (config_request w) = Page ps →
  Forall (named_under (parameter_prefix_of w)) ps →
  ∃ cfg,
    fst (get_configuration w) = Ok cfg
    ∧ ∀ key, occurs (parameter_prefix_of w +:+ "/") key = false →
        cfg !! key = last_value (parameter_prefix_of w +:+ "/" +:+ key) ps.
Proof.
  intros Hpage Hps. unfold config_request in Hpage.
  unfold get_configuration, environ_get. run. rewrite Hpage. cbn.
  eexists. split; [ reflexivity | ].
  apply (config_lookup (parameter_prefix_of w) ps Hps).
Qed.

Lemma touches_is_s3_call b k c : touches b k c → is_s3_call c = true.
Proof. by destruct c. Qed.

(** The calls of a run are requests of the remediation or alerts. *)
Lemma remediation_stays_on_named_objects_calls event cfg w :
  ∃ new,
    calls (snd (process_macie_finding event cfg w)) = calls w ++ new
    ∧ Forall (λ c, is_s3_call c = true ∨ is_alert_call c = true) new.
Proof.
  pose proof (process_macie_finding_trace event cfg w) as Hrun.
  assert (∀ c, remediation_request event c →
            is_s3_call c = true ∨ is_alert_call c = true) as Hweak.
  { intros c (sev & resources & resource & b & k & _ & _ & _ & _ & Hc & _).
    left. by eapply touches_is_s3_call. }
  destruct (process_macie_finding event cfg w) as [[ r | e ] w']; cbn.
  - destruct Hrun as (fid & sev & ty & resources & outs & wl & _ & _ & _ & _ & _ & _
                      & (cs & Hcs & Fcs) & Hcalls).
    eexists. split; [ by rewrite Hcalls, Hcs, <- app_assoc | ].
    apply Forall_app. split; [ by eapply Forall_impl | ].
    destruct (py_in_strs sev ["HIGH"; "CRITICAL"]);
      [ apply Forall_cons; split; [ by right | constructor ] | constructor ].
  - destruct Hrun as (_ & cs & Hcs & Fcs). exists cs. split; [ done | ].
    by eapply Forall_impl.
Qed.

(** X8: whether it returns or raises, [process_macie_finding] only sends
    alerts and requests on the objects the event names: every call to the
    object store copies a target object to [quarantine/key] in its own
    bucket, sets the ACL of that copy, or tags the target object itself. *)
Theorem remediation_stays_on_named_objects event cfg w :
  ∃ new,
    calls (snd (process_macie_finding event cfg w)) = calls w ++ new
    ∧ Forall
        (λ c, is_alert_call c = true
              ∨ ∃ resources resource b k,
                  resources_of event = Ok resources
                  ∧ resource ∈ resources
                  ∧ target resource = Some (b, k)
                  ∧ touches b k c)
        new.
Proof.
  pose proof (process_macie_finding_trace event cfg w) as Hrun.
  assert (∀ c, remediation_request event c →
            is_alert_call c = true
            ∨ ∃ resources resource b k,
                resources_of event = Ok resources ∧ resource ∈ resources
                ∧ target resource = Some (b, k) ∧ touches b k c) as Hweak.
  { intros c (sev & resources & resource & b & k & _ & Hr & Hin & Ht & Hc & _).
    right. by exists resources, resource, b, k. }
  destruct (process_macie_finding event cfg w) as [[ r | e ] w']; cbn.
  - destruct Hrun as (fid & sev & ty & resources & outs & wl & _ & _ & _ & _ & _ & _
                      & (cs & Hcs & Fcs) & Hcalls).
    eexists. split; [ by rewrite Hcalls, Hcs, <- app_assoc | ].
    apply Forall_app. split; [ by eapply Forall_impl | ].
    destruct (py_in_strs sev ["HIGH"; "CRITICAL"]); repeat constructor.
  - destruct Hrun as (_ & cs & Hcs & Fcs). exists cs. split; [ done | ].
    by eapply Forall_impl.
Qed.

Lemma forallb_of_Forall {A} (f : A → bool) xs :
  Forall (λ x, f x = true) xs → forallb f xs = true.
Proof. induction 1 as [ | x xs Hx _ IH ]; cbn; [ done | by rewrite Hx, IH ]. Qed.

(** X9: for a severity other than HIGH and CRITICAL,
    [process_macie_finding] sends tagging requests and nothing else: no
    copy, no ACL change and no alert. *)
Theorem lower_severity_only_tags event cfg w sev :
  extract_severity (dict_get_default event "detail" (PDict [])) = Ok sev →
  py_in_strs sev ["HIGH"; "CRITICAL"] = false →
  ∃ new,
    calls (snd (process_macie_finding event cfg w)) = calls w ++ new
    ∧ forallb is_tagging_call new = true.
Proof.
  intros Hsev Hlow.
  pose proof (process_macie_finding_trace event cfg w) as Hrun.
  assert (∀ c, remediation_request event c → is_tagging_call c = true) as Htag.
  { intros c (sev' & resources & resource & b & k & Hs & _ & _ & _ & _ & Hc).
    apply Hc. congruence. }
  destruct (process_macie_finding event cfg w) as [[ r | e ] w']; cbn.
  - destruct Hrun as (fid & sev' & ty & resources & outs & wl & _ & Hs & _ & _ & _ & _
                      & (cs & Hcs & Fcs) & Hcalls).
    assert (sev' = sev) as -> by congruence. rewrite Hlow, app_nil_r in Hcalls.
    exists cs. split; [ by rewrite Hcalls | ].
    apply forallb_of_Forall. by eapply Forall_impl.
  - destruct Hrun as (_ & cs & Hcs & Fcs). exists cs. split; [ done | ].
    apply forallb_of_Forall. by eapply Forall_impl.
Qed.

(** X10: a finding that has the shape the code reads and none of whose
    resources has a target gets an empty [actions_taken] and no call to the
    object store; if the severity of the finding is HIGH or CRITICAL the
    alert is still published, with the empty list, at the clock reading
    that follows the one of the timestamp. *)
Theorem no_target_no_remediation event cfg w resources :
  event_shaped event = true →
  resources_of event = Ok resources →
  omap target resources = [] →
  ∃ fid sev ty,
    py_get (dict_get_default event "detail" (PDict [])) "id" PNone = Ok fid
    ∧ extract_severity (dict_get_default event "detail" (PDict [])) = Ok sev
    ∧ py_get (dict_get_default event "detail" (PDict [])) "type" PNone = Ok ty
    ∧ fst (process_macie_finding event cfg w) =
        Ok (result_of fid sev ty [] (isoformat (clock w (ticks w))))
    ∧ calls (snd (process_macie_finding event cfg w)) =
        calls w
        ++ (if py_in_strs sev ["HIGH"; "CRITICAL"]
            then [alert_request fid sev ty [] (isoformat (clock w (ticks w)))
                    (clock w (S (ticks w)))]
            else []).
Proof.
  intros Hshape Hres Hnone.
  pose proof (process_macie_finding_exact event cfg w) as Hrun.
  destruct (process_macie_finding event cfg w) as [[ r | e ] w'].
  2: { destruct Hrun as [Hrun _]. congruence. }
  destruct Hrun as (_ & fid & sev & ty & resources' & Hfid & Hsev & Hty & Hres' & Hrun).
  rewrite Hres in Hres'. injection Hres' as <-. rewrite Hnone in Hrun.
  cbn [remediate_all app] in Hrun. destruct Hrun as [-> Hcalls].
  by exists fid, sev, ty.
Qed.

(** X11: an exception that leaves [process_macie_finding] is a failed [get]
    on a value that is not a dict, or a failed iteration of the resources:
    an exception of a service never leaves it.  The event is then not
    shaped, and the calls made before the raise went to the object store:
    no alert was published. *)
Theorem engine_raises_only_on_payload_shape event cfg w e :
  fst (process_macie_finding event cfg w) = Raise e →
  (∃ v, e = AttributeError v "get" ∨ e = TypeError_not_iterable v)
  ∧ event_shaped event = false
  ∧ ∃ new,
      calls (snd (process_macie_finding event cfg w)) = calls w ++ new
      ∧ forallb is_s3_call new = true.
Proof.
  intros He.
  pose proof (process_macie_finding_trace event cfg w) as Hrun.
  pose proof (process_macie_finding_run event cfg w) as Hshape.
  destruct (process_macie_finding event cfg w) as [[ r | e' ] w']; [ done | ].
  cbn in He. simplify_eq. destruct Hrun as (Hexn & cs & Hcs & Fcs).
  split; [ done | ]. split; [ done | ]. exists cs. split; [ done | ].
  apply forallb_of_Forall. eapply Forall_impl; [ exact Fcs | ].
  intros c (sev & rs & resource & b & k & _ & _ & _ & _ & Hc & _).
  by eapply touches_is_s3_call.
Qed.

(** X7: when [process_macie_finding] returns, the result holds the [id]
    and [type] of the finding ([None] when absent), the extracted severity,
    the clock reading taken before the loop, and for each resource that has
    a target, in order, exactly the outcome [handle_pii_in_s3_object]
    builds: bucket, key, the severity of the finding and the actions, a
    quarantine and a tag for HIGH or CRITICAL, a tag alone otherwise, and
    never an [error] field. *)
Theorem result_carries_finding_and_outcomes event cfg w r :
  fst (process_macie_finding event cfg w) = Ok r →
  ∃ fid sev ty resources outs,
    py_get (dict_get_default event "detail" (PDict [])) "id" PNone = Ok fid
    ∧ extract_severity (dict_get_default event "detail" (PDict [])) = Ok sev
    ∧ py_get (dict_get_default event "detail" (PDict [])) "type" PNone = Ok ty
    ∧ resources_of event = Ok resources
    ∧ r = result_of fid sev ty outs (isoformat (clock w (ticks w)))
    ∧ Forall2 (outcome_at sev) (omap target resources) outs.
Proof.
  intros Hr. pose proof (process_macie_finding_trace event cfg w) as Hrun.
  destruct (process_macie_finding event cfg w) as [[ r' | e ] w']; [ | done ].
  cbn in Hr. simplify_eq.
  destruct Hrun as (fid & sev & ty & resources & outs & wl & H1 & H2 & H3 & H4 & H5 & H6 & _).
  by exists fid, sev, ty, resources, outs.
Qed.

Lemma get_configuration_frame r w :
  let w1 := snd (get_configuration (add_log r w)) in
  environ w1 = environ w ∧ respond w1 = respond w ∧ clock w1 = clock w
  ∧ calls w1 = calls w ++ [config_request w] ∧ ticks w1 = ticks w.
Proof.
  unfold get_configuration, config_request, environ_get. run.
  answers; unfold response_parameters; cbn; done.
Qed.

#[local] Arguments get_configuration : simpl never.
#[local] Arguments process_macie_finding : simpl never.

(** X6: for an event of source [aws.macie2], once the configuration is
    fetched, the handler runs the engine in the world the fetch left and
    answers 200 with the engine's result if it returns, 500 with the text
    of the exception if it raises; the timestamp is read after the engine
    ran. *)
Theorem macie_event_answer event context w cfg :
  dict_get event "source" = Some (PStr "aws.macie2") →
  fst (get_configuration w) = Ok cfg →
  fst (lambda_handler event context w) =
    match process_macie_finding event cfg
            (snd (get_configuration (add_log (received event) w))) with
    | (Ok r, w2) =>
        Ok (Envelope 200
              (json_dumps
                 (PDict [("message", PStr "Event processed successfully");
                         ("result", PDict r);
                         ("timestamp", PStr (isoformat (clock w2 (ticks w2))))])))
    | (Raise e, w2) =>
        Ok (Envelope 500
              (json_dumps
                 (PDict [("error", PStr "Event processing failed");
                         ("message", PStr (exn_str e));
                         ("timestamp", PStr (isoformat (clock w2 (ticks w2))))])))
    end.
Proof.
  intros Hsrc Hcfg.
  destruct (get_configuration_after_log (received event) w) as (Hf & _).
  rewrite Hcfg in Hf.
  unfold lambda_handler, lambda_handler_with. run. fold (received event).
  destruct (get_configuration (add_log (received event) w)) as [r1 w1] eqn:Hg.
  cbn in Hf. subst r1. cbn. unfold dict_get_default. rewrite Hsrc. cbn.
  by destruct (process_macie_finding event cfg w1) as [[ r | e ] w2].
Qed.

(** X2: for a severity of HIGH or CRITICAL, [handle_pii_in_s3_object] sends
    the copy request, then the ACL request if and only if the copy was
    accepted, then the tagging request, whatever the first two were
    answered; the tagging request carries the clock reading that follows
    the one of the copy. *)
Theorem high_remediation_requests b k (s : string) cfg w :
  py_in_strs (PStr s) ["HIGH"; "CRITICAL"] = true →
  let copy :=
    CopyObject [("Bucket", b); ("Key", k)] b ("quarantine/" +:+ py_str k) "AES256"
      [("quarantine-reason", PStr "PII-detected");
       ("quarantine-timestamp", PStr (isoformat (clock w (ticks w))));
       ("original-key", k)]
      "REPLACE" in
  let acl := PutObjectAcl b ("quarantine/" +:+ py_str k) "private" in
  let tagging := tagging_request b k (str_lower s) (clock w (S (ticks w))) in
  calls (snd (handle_pii_in_s3_object b k (PStr s) cfg w)) =
    calls w ++ [copy]
    ++ (if accepted (respond w (calls w) copy) then [acl] else [])
    ++ [tagging].
Proof.
  intros Hs copy acl tagging. subst copy acl tagging.
  unfold handle_pii_in_s3_object. run. rewrite Hs. cbn.
  unfold quarantine_object, tag_object_with_pii_info, tagging_request. run.
  answers; rewrite <- ?app_assoc; reflexivity.
Qed.

(** X5: every invocation of [lambda_handler] sends the configuration
    request first and once: all the calls after it go to the object store or
    to the event bus. *)
Theorem configuration_fetched_once event context w :
  ∃ rest,
    calls (snd (lambda_handler event context w)) = calls w ++ config_request w :: rest
    ∧ Forall (λ c, is_s3_call c = true ∨ is_alert_call c = true) rest.
Proof.
  pose proof (get_configuration_frame (received event) w) as (_ & _ & _ & Hc & _).
  unfold lambda_handler, lambda_handler_with. run. fold (received event).
  destruct (get_configuration (add_log (received event) w)) as [[ cfg | e ] w1];
    cbn in *.
  2: { exists []. split; [ done | constructor ]. }
  destruct (py_eq_str (dict_get_default event "source" PNone) "aws.macie2"); cbn.
  2: { exists []. split; [ done | constructor ]. }
  destruct (remediation_stays_on_named_objects_calls event cfg w1) as (new & Hnew & Fnew).
  exists new. split.
  - destruct (process_macie_finding event cfg w1) as [[ r | e ] w2]; cbn in *;
      by rewrite Hnew, Hc, <- app_assoc.
  - done.
Qed.

End MoreFacts.

Lemma high_remediation_requests_witness :
  py_in_strs (PStr "HIGH") ["HIGH"; "CRITICAL"] = true
  ∧ calls (snd (handle_pii_in_s3_object (PStr "media") (PStr "reports/a.csv")
                  (PStr "HIGH") ∅ (fresh copy_down))) =
      [CopyObject [("Bucket", PStr "media"); ("Key", PStr "reports/a.csv")]
         (PStr "media") "quarantine/reports/a.csv" "AES256"
         [("quarantine-reason", PStr "PII-detected");
          ("quarantine-timestamp", PStr "2024-05-01T12:00:00");
          ("original-key", PStr "reports/a.csv")]
         "REPLACE";
       tagging_request (PStr "media") (PStr "reports/a.csv") "high" (noon 1)].
Proof.
  split; [ reflexivity | ].
  exact (high_remediation_requests (PStr "media") (PStr "reports/a.csv") "HIGH" ∅
           (fresh copy_down) eq_refl).
Defined.

Lemma configuration_keys_drop_the_prefix_witness :
  respond (fresh two_hosts) (calls (fresh two_hosts)) (config_request (fresh two_hosts))
    = Page [Param "/media-processing-pipeline/dev/db-host" "alpha";
            Param "/media-processing-pipeline/dev/alert-topic" "security";
            Param "/media-processing-pipeline/dev/db-host" "beta"]
  ∧ ∃ cfg,
      fst (get_configuration (fresh two_hosts)) = Ok cfg
      ∧ cfg !! "db-host" = Some "beta"
      ∧ cfg !! "alert-topic" = Some "security".
Proof.
  split; [ reflexivity | ].
  destruct (configuration_keys_drop_the_prefix (fresh two_hosts)
              [Param "/media-processing-pipeline/dev/db-host" "alpha";
               Param "/media-processing-pipeline/dev/alert-topic" "security";
               Param "/media-processing-pipeline/dev/db-host" "beta"])
    as (cfg & Hcfg & Hkeys).
  - reflexivity.
  - repeat constructor.
    + by exists "db-host".
    + by exists "alert-topic".
    + by exists "db-host".
  - exists cfg. split; [ exact Hcfg | ].
    split; [ apply (Hkeys "db-host") | apply (Hkeys "alert-topic") ]; reflexivity.
Defined.

Lemma lower_severity_only_tags_witness :
  extract_severity (dict_get_default (finding "LOW" [a_csv; b_csv]) "detail" (PDict []))
    = Ok (PStr "LOW")
  ∧ ∃ new,
      calls (snd (process_macie_finding (finding "LOW" [a_csv; b_csv]) ∅ (fresh all_up)))
        = calls (fresh all_up) ++ new
      ∧ forallb is_tagging_call new = true.
Proof.
  split; [ reflexivity | ].
  apply (lower_severity_only_tags (finding "LOW" [a_csv; b_csv]) ∅ (fresh all_up)
           (PStr "LOW")); reflexivity.
Defined.

Lemma no_target_no_remediation_witness :
  event_shaped (finding "HIGH" [a_bucket; keyless]) = true
  ∧ resources_of (finding "HIGH" [a_bucket; keyless]) = Ok [a_bucket; keyless]
  ∧ omap target [a_bucket; keyless] = []
  ∧ fst (process_macie_finding (finding "HIGH" [a_bucket; keyless]) ∅ (fresh all_up))
    = Ok (finding_result "HIGH" [])
  ∧ map is_alert_call
      (calls (snd (process_macie_finding (finding "HIGH" [a_bucket; keyless]) ∅
                     (fresh all_up))))
    = [true].
Proof.
  do 3 (split; [ reflexivity | ]).
  destruct (no_target_no_remediation (finding "HIGH" [a_bucket; keyless]) ∅
              (fresh all_up) [a_bucket; keyless] eq_refl eq_refl eq_refl)
    as (fid & sev & ty & Hfid & Hsev & Hty & Hresult & Hcalls).
  injection Hfid as <-. injection Hsev as <-. injection Hty as <-.
  split; [ exact Hresult | ]. rewrite Hcalls. reflexivity.
Defined.

Lemma engine_raises_only_on_payload_shape_witness :
  fst (process_macie_finding number_among_resources ∅ (fresh all_up))
    = Raise (AttributeError (PInt 5) "get")
  ∧ (∃ v, AttributeError (PInt 5) "get" = AttributeError v "get"
          ∨ AttributeError (PInt 5) "get" = TypeError_not_iterable v)
  ∧ event_shaped number_among_resources = false
  ∧ ∃ new,
      calls (snd (process_macie_finding number_among_resources ∅ (fresh all_up)))
        = calls (fresh all_up) ++ new
      ∧ forallb is_s3_call new = true.
Proof.
  split; [ reflexivity | ].
  apply (engine_raises_only_on_payload_shape number_among_resources ∅ (fresh all_up)).
  reflexivity.
Defined.

Lemma result_carries_finding_and_outcomes_witness :
  fst (process_macie_finding (finding "CRITICAL" [a_csv; b_csv]) ∅ (fresh s3_down))
    = Ok (finding_result "CRITICAL"
            [outcome "reports/a.csv" "CRITICAL" [refused "quarantine"; refused "tag"];
             outcome "reports/b.csv" "CRITICAL" [refused "quarantine"; refused "tag"]])
  ∧ ∃ fid sev ty resources outs,
      py_get (dict_get_default (finding "CRITICAL" [a_csv; b_csv]) "detail" (PDict []))
        "id" PNone = Ok fid
      ∧ extract_severity
          (dict_get_default (finding "CRITICAL" [a_csv; b_csv]) "detail" (PDict []))
        = Ok sev
      ∧ py_get (dict_get_default (finding "CRITICAL" [a_csv; b_csv]) "detail" (PDict []))
          "type" PNone = Ok ty
      ∧ resources_of (finding "CRITICAL" [a_csv; b_csv]) = Ok resources
      ∧ finding_result "CRITICAL"
          [outcome "reports/a.csv" "CRITICAL" [refused "quarantine"; refused "tag"];
           outcome "reports/b.csv" "CRITICAL" [refused "quarantine"; refused "tag"]]
        = result_of fid sev ty outs
            (isoformat (clock (fresh s3_down) (ticks (fresh s3_down))))
      ∧ Forall2 (outcome_at sev) (omap target resources) outs.
Proof.
  split; [ reflexivity | ].
  apply (result_carries_finding_and_outcomes (finding "CRITICAL" [a_csv; b_csv]) ∅
           (fresh s3_down)).
  reflexivity.
Defined.

Lemma macie_event_answer_witness :
  dict_get number_among_resources "source" = Some (PStr "aws.macie2")
  ∧ fst (get_configuration (fresh all_up)) = Ok (<["alert-topic" := "security"]> ∅)
  ∧ fst (lambda_handler number_among_resources PNone (fresh all_up)) =
      Ok (Envelope 500
            (json_dumps
               (PDict [("error", PStr "Event processing failed");
                       ("message", PStr "'int' object has no attribute 'get'");
                       ("timestamp", PStr "2024-05-01T12:00:03")]))).
Proof.
  split; [ reflexivity | ]. split; [ reflexivity | ].
  rewrite (macie_event_answer number_among_resources PNone (fresh all_up)
             (<["alert-topic" := "security"]> ∅) eq_refl eq_refl).
  reflexivity.
Defined.

Lemma result_does_not_depend_on_event_bus_witness :
  same_but_bus (fresh all_up) (fresh bus_down)
  ∧ fst (process_macie_finding (finding "CRITICAL" [a_csv]) ∅ (fresh all_up))
    = fst (process_macie_finding (finding "CRITICAL" [a_csv]) ∅ (fresh bus_down)).
Proof.
  assert (same_but_bus (fresh all_up) (fresh bus_down)) as Hsame.
  { repeat split. by intros history [ ]. }
  split; [ exact Hsame | ].
  exact (result_does_not_depend_on_event_bus (finding "CRITICAL" [a_csv]) ∅
           (fresh all_up) (fresh bus_down) Hsame).
Defined.

(** ** Properties of the validation script *)

Section ValidateFacts.
Context `{!ErrorTexts}.

Lemma is_prefix_extend p s t : is_prefix p s = true → is_prefix p (s +:+ t) = true.
Proof.
  revert s. induction p as [ | a p IH ]; intros [ | b s ]; simpl; try done.
  destruct (Ascii.eqb a b); [ apply IH | done ].
Qed.

Lemma occurs_extend_right p s t : occurs p s = true → occurs p (s +:+ t) = true.
Proof.
  induction s as [ | c s IH ]; simpl.
  - rewrite orb_false_r. intros Hp. destruct p; [ | done ].
    destruct t; reflexivity.
  - intros [Hp | Hs]%orb_true_iff; apply orb_true_iff.
    + left. apply (is_prefix_extend p (String c s) t Hp).
    + right. apply IH, Hs.
Qed.

Lemma occurs_extend_left p s t : occurs p s = true → occurs p (t +:+ s) = true.
Proof.
  intros Hs. induction t as [ | c t IH ]; simpl; [ exact Hs | ].
  apply orb_true_iff. right. exact IH.
Qed.

Lemma occurs_extend p before s after :
  occurs p s = true → occurs p (before +:+ s +:+ after) = true.
Proof.
  intros Hs. apply occurs_extend_left, occurs_extend_right, Hs.
Qed.

Lemma forallb_occurs_extend ps before s after :
  forallb (λ p, occurs p s) ps = true →
  forallb (λ p, occurs p (before +:+ s +:+ after)) ps = true.
Proof.
  rewrite !forallb_forall. intros Hps p Hp. apply occurs_extend, Hps, Hp.
Qed.

Lemma nothing_missing code :
  forallb (λ fragment, occurs fragment code) required_fragments = true
  ↔ missing_imports code = [] ∧ missing_functions code = [].
Proof.
  unfold missing_imports, missing_functions, required_fragments.
  cbv beta iota zeta fix delta [String.append List.filter forallb].
  destruct (occurs "import boto3" code), (occurs "import json" code),
    (occurs "import logging" code), (occurs "def lambda_handler" code),
    (occurs "def process_macie_finding" code), (occurs "def get_configuration" code);
    simpl; (split; [ intros Hall | intros [Himports Hfunctions] ]); done.
Qed.

(** The run of [validate_lambda_code] once the banner is printed. *)
Lemma validate_lambda_code_run path s :
  console s (stdout s) lambda_banner = None →
  validate_lambda_code path s =
    match read_text s path with
    | Raise e =>
        (Ok (verdict false ["Lambda code validation failed: " +:+ exn_str e]),
         printed lambda_banner s)
    | Ok code =>
        match missing_imports code with
        | _ :: _ =>
            (Ok (verdict false
                   (map (λ imp, "Missing import: " +:+ imp) (missing_imports code))),
             printed lambda_banner s)
        | [] =>
            match missing_functions code with
            | _ :: _ =>
                (Ok (verdict false
                       (map (λ func, "Missing function: " +:+ func)
                          (missing_functions code))),
                 printed lambda_banner s)
            | [] =>
                match console s (stdout s ++ [lambda_banner]) lambda_passed with
                | None =>
                    (Ok (verdict true []),
                     printed lambda_passed (printed lambda_banner s))
                | Some e =>
                    (Ok (verdict false
                           ["Lambda code validation failed: " +:+ exn_str e]),
                     printed lambda_banner s)
                end
            end
        end
    end.
Proof.
  intros Hbanner.
  unfold validate_lambda_code, mbind, ST_bind, try_except, print, read, mret, ST_ret.
  fold lambda_banner lambda_passed.
  rewrite Hbanner. cbn [read_text printed].
  destruct (read_text s path) as [ code | e ]; [ | reflexivity ].
  fold (missing_imports code). fold (missing_functions code).
  destruct (missing_imports code); [ | reflexivity ].
  destruct (missing_functions code); [ | reflexivity ].
  change (console (printed lambda_banner s) (stdout (printed lambda_banner s)))
    with (console s (stdout s ++ [lambda_banner])).
  destruct (console s (stdout s ++ [lambda_banner]) lambda_passed); reflexivity.
Qed.

Lemma validate_lambda_code_refused path s e :
  console s (stdout s) lambda_banner = Some e →
  validate_lambda_code path s = (Raise e, s).
Proof.
  intros Hbanner.
  unfold validate_lambda_code, mbind, ST_bind, print. fold lambda_banner.
  by rewrite Hbanner.
Qed.

Lemma comprehension_sids (stmts : list dict) :
  comprehension (λ stmt, py_get stmt "Sid" PNone) (map PDict stmts)
  = Ok (map (λ stmt, dict_get_default stmt "Sid" PNone) stmts).
Proof.
  induction stmts as [ | stmt stmts IH ]; [ reflexivity | ].
  cbn [map comprehension py_get]. by rewrite IH.
Qed.

Lemma comprehension_stops (before : list dict) v after :
  is_dict v = false →
  comprehension (λ stmt, py_get stmt "Sid" PNone) (map PDict before ++ v :: after)
  = Raise (AttributeError v "get").
Proof.
  intros Hv. induction before as [ | stmt before IH ].
  - cbn [map app comprehension]. by destruct v.
  - cbn [map app comprehension py_get]. by rewrite IH.
Qed.

Lemma has_sid_among stmts sid :
  existsb (λ v, py_eq_str v sid) (map (λ stmt, dict_get_default stmt "Sid" PNone) stmts)
  = has_sid stmts sid.
Proof.
  unfold has_sid. induction stmts as [ | stmt stmts IH ]; [ reflexivity | ].
  cbn [map existsb]. by rewrite IH.
Qed.

Lemma has_sid_spec stmts sid :
  has_sid stmts sid = true
  ↔ ∃ stmt, stmt ∈ stmts ∧ dict_get stmt "Sid" = Some (PStr sid).
Proof.
  unfold has_sid. rewrite existsb_exists. split.
  - intros (stmt & Hin & Heq). exists stmt. split; [ by apply list_elem_of_In | ].
    unfold dict_get_default in Heq.
    destruct (dict_get stmt "Sid") as [ [ | | | | t | | ] | ]; try done.
    cbn in Heq. by apply String.eqb_eq in Heq as ->.
  - intros (stmt & Hin & Heq). exists stmt. split; [ by apply list_elem_of_In | ].
    unfold dict_get_default. rewrite Heq. cbn. apply String.eqb_refl.
Qed.

Ltac policy_run :=
  unfold validate_bucket_policies, mbind, ST_bind, try_except, print, json_load, eval,
    mret, ST_ret;
  fold policy_banner policy_passed.

(** The run of [validate_bucket_policies] on a policy whose [Statement] is a
    list of objects, once the banner is printed. *)
Lemma validate_bucket_policies_run path s p stmts :
  console s (stdout s) policy_banner = None →
  load_json s path = Ok (PDict p) →
  dict_get p "Statement" = Some (PList (map PDict stmts)) →
  validate_bucket_policies path s =
    match List.filter (λ sid, negb (has_sid stmts sid)) required_sids with
    | _ :: _ =>
        (Ok (verdict false
               (map (λ sid, "Missing security statement: " +:+ sid)
                  (List.filter (λ sid, negb (has_sid stmts sid)) required_sids))),
         printed policy_banner s)
    | [] =>
        match console s (stdout s ++ [policy_banner]) policy_passed with
        | None => (Ok (verdict true []), printed policy_passed (printed policy_banner s))
        | Some e =>
            (Ok (verdict false ["Bucket policy validation failed: " +:+ exn_str e]),
             printed policy_banner s)
        end
    end.
Proof.
  intros Hbanner Hload Hstatement. policy_run.
  rewrite Hbanner. cbn [load_json printed]. rewrite Hload.
  cbn [contains subscript]. unfold getitem. rewrite Hstatement. cbn [negb py_iter].
  rewrite comprehension_sids.
  rewrite (List.filter_ext _ (λ sid, negb (has_sid stmts sid)))
    by (intros sid; by rewrite has_sid_among).
  fold required_sids.
  destruct (List.filter (λ sid, negb (has_sid stmts sid)) required_sids);
    [ | reflexivity ].
  change (console (printed policy_banner s) (stdout (printed policy_banner s)))
    with (console s (stdout s ++ [policy_banner])).
  destruct (console s (stdout s ++ [policy_banner]) policy_passed); reflexivity.
Qed.

Lemma no_sid_missing stmts :
  forallb (has_sid stmts) required_sids = true
  ↔ List.filter (λ sid, negb (has_sid stmts sid)) required_sids = [].
Proof.
  unfold required_sids. cbn [forallb List.filter].
  destruct (has_sid stmts "DenyPublicRead"), (has_sid stmts "DenyInsecureConnections"),
    (has_sid stmts "AllowMacieAccess"), (has_sid stmts "DenyUnencryptedObjectUploads");
    cbn [negb andb]; (split; intros Hall); done.
Qed.

(** X13: [validate_lambda_code] raises only when the banner cannot be
    printed, with the exception of the console and nothing done.  Otherwise
    it returns a verdict, whatever the file holds and whether or not it can
    be read: the verdict is valid exactly when it carries no error, and the
    line that reports success is printed exactly when it is valid. *)
Theorem validate_lambda_code_answer path s :
  match console s (stdout s) lambda_banner with
  | Some e => validate_lambda_code path s = (Raise e, s)
  | None =>
      ∃ valid errors,
        fst (validate_lambda_code path s) = Ok (verdict valid errors)
        ∧ (valid = true ↔ errors = [])
        ∧ stdout (snd (validate_lambda_code path s)) =
            stdout s ++ lambda_banner :: (if valid then [lambda_passed] else [])
  end.
Proof.
  destruct (console s (stdout s) lambda_banner) as [ e | ] eqn:Hbanner.
  { by apply validate_lambda_code_refused. }
  rewrite (validate_lambda_code_run path s Hbanner).
  destruct (read_text s path) as [ code | e ].
  - destruct (missing_imports code) as [ | imp imps ].
    + destruct (missing_functions code) as [ | func funcs ].
      * destruct (console s (stdout s ++ [lambda_banner]) lambda_passed) as [ e | ].
        -- eexists false, [_]. by repeat split.
        -- exists true, []. repeat split. cbn [snd stdout printed].
           by rewrite <- app_assoc.
      * eexists false, (_ :: _). by repeat split.
    + eexists false, (_ :: _). by repeat split.
  - eexists false, [_]. by repeat split.
Qed.

(** X14: once the banner is printed and the file is read,
    [validate_lambda_code] accepts the text exactly when each of the six
    fragments [import boto3], [import json], [import logging],
    [def lambda_handler], [def process_macie_finding] and
    [def get_configuration] occurs somewhere in it, and the line that
    reports success can be printed. *)
Theorem lambda_code_accepted_iff path s code :
  console s (stdout s) lambda_banner = None →
  read_text s path = Ok code →
  fst (validate_lambda_code path s) = Ok (verdict true [])
  ↔ forallb (λ fragment, occurs fragment code) required_fragments = true
    ∧ console s (stdout s ++ [lambda_banner]) lambda_passed = None.
Proof.
  intros Hbanner Hread.
  rewrite (validate_lambda_code_run path s Hbanner), Hread, nothing_missing.
  destruct (missing_imports code) as [ | imp imps ].
  - destruct (missing_functions code) as [ | func funcs ].
    + destruct (console s (stdout s ++ [lambda_banner]) lambda_passed) as [ e | ].
      * split; [ done | by intros [_ ?] ].
      * done.
    + split; [ done | by intros [[_ ?] _] ].
  - split; [ done | by intros [[? _] _] ].
Qed.

(** X15: when a text is rejected, the errors name what is missing, in the
    order of the source: the missing imports if any import is missing, and
    then nothing about the functions, which are not looked at; otherwise the
    missing functions.  Nothing more is printed. *)
Theorem lambda_code_rejection_names_what_is_missing path s code :
  console s (stdout s) lambda_banner = None →
  read_text s path = Ok code →
  forallb (λ fragment, occurs fragment code) required_fragments = false →
  validate_lambda_code path s =
    (Ok (verdict false
           match missing_imports code with
           | [] => map (λ func, "Missing function: " +:+ func) (missing_functions code)
           | imports => map (λ imp, "Missing import: " +:+ imp) imports
           end),
     printed lambda_banner s).
Proof.
  intros Hbanner Hread Hsome.
  rewrite (validate_lambda_code_run path s Hbanner), Hread.
  destruct (missing_imports code) as [ | imp imps ] eqn:Himports; [ | reflexivity ].
  destruct (missing_functions code) as [ | func funcs ] eqn:Hfunctions; [ | reflexivity ].
  assert (forallb (λ fragment, occurs fragment code) required_fragments = true)
    as Hall by by apply nothing_missing.
  congruence.
Qed.

(** X16: a text that is accepted stays accepted when text is added before
    and after it: the check only looks for the fragments, wherever they
    are. *)
Theorem accepted_code_stays_accepted path s1 s2 code before after :
  console s1 = console s2 →
  stdout s1 = stdout s2 →
  read_text s1 path = Ok code →
  read_text s2 path = Ok (before +:+ code +:+ after) →
  fst (validate_lambda_code path s1) = Ok (verdict true []) →
  fst (validate_lambda_code path s2) = Ok (verdict true []).
Proof.
  intros Hconsole Hstdout Hread1 Hread2 Haccepted.
  destruct (console s1 (stdout s1) lambda_banner) as [ e | ] eqn:Hbanner.
  { by rewrite (validate_lambda_code_refused path s1 e Hbanner) in Haccepted. }
  assert (console s2 (stdout s2) lambda_banner = None) as Hbanner2
    by by rewrite <- Hconsole, <- Hstdout.
  rewrite (validate_lambda_code_run path s1 Hbanner), Hread1 in Haccepted.
  rewrite (validate_lambda_code_run path s2 Hbanner2), Hread2.
  destruct (missing_imports code) as [ | ? ? ] eqn:Himports; [ | done ].
  destruct (missing_functions code) as [ | ? ? ] eqn:Hfunctions; [ | done ].
  assert (forallb (λ fragment, occurs fragment (before +:+ code +:+ after))
            required_fragments = true) as [-> ->]%nothing_missing.
  { apply forallb_occurs_extend. by apply nothing_missing. }
  rewrite <- Hconsole, <- Hstdout.
  by destruct (console s1 (stdout s1 ++ [lambda_banner]) lambda_passed).
Qed.

(** X17: [validate_bucket_policies] raises only when the banner cannot be
    printed, with the exception of the console and nothing done.  Otherwise
    it returns a verdict, whatever JSON value the file holds and whether or
    not it can be loaded: the verdict is valid exactly when it carries no
    error, and the line that reports success is printed exactly when it is
    valid. *)
Theorem validate_bucket_policies_answer path s :
  match console s (stdout s) policy_banner with
  | Some e => validate_bucket_policies path s = (Raise e, s)
  | None =>
      ∃ valid errors,
        fst (validate_bucket_policies path s) = Ok (verdict valid errors)
        ∧ (valid = true ↔ errors = [])
        ∧ stdout (snd (validate_bucket_policies path s)) =
            stdout s ++ policy_banner :: (if valid then [policy_passed] else [])
  end.
Proof.
  policy_run.
  destruct (console s (stdout s) policy_banner) as [ e | ] eqn:Hbanner; [ done | ].
  cbn [load_json printed].
  destruct (load_json s path) as [ policy | e ];
    [ | eexists false, [_]; by repeat split ].
  destruct (contains policy "Statement") as [ [ | ] | e ]; cbn [negb];
    [ | eexists false, [_]; by repeat split .. ].
  destruct (subscript policy "Statement") as [ statements | e ];
    [ | eexists false, [_]; by repeat split ].
  destruct (py_iter statements) as [ items | e ];
    [ | eexists false, [_]; by repeat split ].
  destruct (comprehension _ items) as [ sids | e ];
    [ | eexists false, [_]; by repeat split ].
  destruct (List.filter _ _) as [ | sid missing ];
    [ | eexists false, (_ :: _); by repeat split ].
  match goal with
  | |- context [console ?s1 ?out policy_passed] =>
      destruct (console s1 out policy_passed) as [ e | ]
  end.
  - eexists false, [_]. by repeat split.
  - exists true, []. repeat split. cbn [snd stdout printed]. by rewrite <- app_assoc.
Qed.

(** X18: for a policy that is an object whose [Statement] is a list of
    objects, [validate_bucket_policies] accepts exactly when each of the
    four ids [DenyPublicRead], [DenyInsecureConnections], [AllowMacieAccess]
    and [DenyUnencryptedObjectUploads] is the [Sid] of some statement, and
    the line that reports success can be printed.  Nothing but the [Sid] of
    a statement is looked at. *)
Theorem bucket_policy_accepted_iff path s p stmts :
  console s (stdout s) policy_banner = None →
  load_json s path = Ok (PDict p) →
  dict_get p "Statement" = Some (PList (map PDict stmts)) →
  fst (validate_bucket_policies path s) = Ok (verdict true [])
  ↔ (∀ sid, sid ∈ required_sids →
       ∃ stmt, stmt ∈ stmts ∧ dict_get stmt "Sid" = Some (PStr sid))
    ∧ console s (stdout s ++ [policy_banner]) policy_passed = None.
Proof.
  intros Hbanner Hload Hstatement.
  rewrite (validate_bucket_policies_run path s p stmts Hbanner Hload Hstatement).
  assert ((∀ sid, sid ∈ required_sids →
             ∃ stmt, stmt ∈ stmts ∧ dict_get stmt "Sid" = Some (PStr sid))
          ↔ List.filter (λ sid, negb (has_sid stmts sid)) required_sids = []) as ->.
  { rewrite <- no_sid_missing, forallb_forall. split.
    - intros Hall sid Hsid%list_elem_of_In. by apply has_sid_spec, Hall.
    - intros Hall sid Hsid%list_elem_of_In. by apply has_sid_spec, Hall. }
  destruct (List.filter _ required_sids) as [ | sid missing ].
  - destruct (console s (stdout s ++ [policy_banner]) policy_passed) as [ e | ].
    + split; [ done | by intros [_ ?] ].
    + done.
  - split; [ done | by intros [? _] ].
Qed.

(** X19: for such a policy, when some of the four ids is the [Sid] of no
    statement, the verdict is invalid and its errors name exactly the ids
    that are missing, in the order [DenyPublicRead],
    [DenyInsecureConnections], [AllowMacieAccess],
    [DenyUnencryptedObjectUploads]; nothing more is printed. *)
Theorem missing_sids_are_named path s p stmts :
  console s (stdout s) policy_banner = None →
  load_json s path = Ok (PDict p) →
  dict_get p "Statement" = Some (PList (map PDict stmts)) →
  forallb (has_sid stmts) required_sids = false →
  validate_bucket_policies path s =
    (Ok (verdict false
           (map (λ sid, "Missing security statement: " +:+ sid)
              (List.filter (λ sid, negb (has_sid stmts sid)) required_sids))),
     printed policy_banner s).
Proof.
  intros Hbanner Hload Hstatement Hsome.
  rewrite (validate_bucket_policies_run path s p stmts Hbanner Hload Hstatement).
  destruct (List.filter _ required_sids) as [ | sid missing ] eqn:Hmissing;
    [ | reflexivity ].
  apply no_sid_missing in Hmissing. congruence.
Qed.

(** X20: when the [Statement] of the policy is not a list of objects, the
    first item that is not an object ends the check: the verdict is invalid
    with the text of the attribute error of [get] on that item.  A
    [Statement] that is a single statement object is such a case, its keys
    being the items. *)
Theorem non_object_statement_is_rejected path s p statements before v after :
  console s (stdout s) policy_banner = None →
  load_json s path = Ok (PDict p) →
  dict_get p "Statement" = Some statements →
  py_iter statements = Ok (map PDict before ++ v :: after) →
  is_dict v = false →
  validate_bucket_policies path s =
    (Ok (verdict false
           ["Bucket policy validation failed: '" +:+ type_name v
            +:+ "' object has no attribute 'get'"]),
     printed policy_banner s).
Proof.
  intros Hbanner Hload Hstatement Hitems Hv. policy_run.
  rewrite Hbanner. cbn [load_json printed]. rewrite Hload.
  cbn [contains subscript]. unfold getitem. rewrite Hstatement. cbn [negb].
  rewrite Hitems, (comprehension_stops before v after Hv).
  reflexivity.
Qed.

End ValidateFacts.

Lemma lambda_code_accepted_iff_witness :
  console (a_shell commented_out PNone) (stdout (a_shell commented_out PNone))
    lambda_banner = None
  ∧ read_text (a_shell commented_out PNone) "lambda/pii_processor.py" = Ok commented_out
  ∧ fst (validate_lambda_code "lambda/pii_processor.py" (a_shell commented_out PNone))
    = Ok (verdict true []).
Proof.
  split; [ reflexivity | ]. split; [ reflexivity | ].
  apply (proj2 (lambda_code_accepted_iff "lambda/pii_processor.py"
                  (a_shell commented_out PNone) commented_out eq_refl eq_refl)).
  split; reflexivity.
Defined.

Lemma lambda_code_rejection_names_what_is_missing_witness :
  forallb (λ fragment, occurs fragment json_only) required_fragments = false
  ∧ validate_lambda_code "lambda/pii_processor.py" (a_shell json_only PNone)
    = (Ok (verdict false ["Missing import: boto3"; "Missing import: logging"]),
       printed lambda_banner (a_shell json_only PNone)).
Proof.
  split; [ reflexivity | ].
  exact (lambda_code_rejection_names_what_is_missing "lambda/pii_processor.py"
           (a_shell json_only PNone) json_only eq_refl eq_refl eq_refl).
Defined.

Lemma accepted_code_stays_accepted_witness :
  fst (validate_lambda_code "lambda/pii_processor.py" (a_shell commented_out PNone))
    = Ok (verdict true [])
  ∧ fst (validate_lambda_code "lambda/pii_processor.py"
           (a_shell ("#!/usr/bin/env python3 " +:+ commented_out +:+ "# the end") PNone))
    = Ok (verdict true []).
Proof.
  split; [ reflexivity | ].
  exact (accepted_code_stays_accepted "lambda/pii_processor.py"
           (a_shell commented_out PNone)
           (a_shell ("#!/usr/bin/env python3 " +:+ commented_out +:+ "# the end") PNone)
           commented_out "#!/usr/bin/env python3 " "# the end"
           eq_refl eq_refl eq_refl eq_refl eq_refl).
Defined.

Lemma bucket_policy_accepted_iff_witness :
  load_json (a_shell "" allow_all) "policies/s3-bucket-policy-template.json"
    = Ok allow_all
  ∧ fst (validate_bucket_policies "policies/s3-bucket-policy-template.json"
           (a_shell "" allow_all)) = Ok (verdict true [])
  ∧ ∀ sid, sid ∈ required_sids →
      ∃ stmt,
        stmt ∈ [statement "AllowMacieAccess" "Allow";
                statement "DenyPublicRead" "Allow";
                statement "DenyUnencryptedObjectUploads" "Allow";
                statement "DenyInsecureConnections" "Allow"]
        ∧ dict_get stmt "Sid" = Some (PStr sid).
Proof.
  split; [ reflexivity | ]. split; [ reflexivity | ].
  apply (proj1 (bucket_policy_accepted_iff "policies/s3-bucket-policy-template.json"
                  (a_shell "" allow_all)
                  [("Version", PStr "2012-10-17");
                   ("Statement",
                    PList [PDict (statement "AllowMacieAccess" "Allow");
                           PDict (statement "DenyPublicRead" "Allow");
                           PDict (statement "DenyUnencryptedObjectUploads" "Allow");
                           PDict (statement "DenyInsecureConnections" "Allow")])]
                  [statement "AllowMacieAccess" "Allow";
                   statement "DenyPublicRead" "Allow";
                   statement "DenyUnencryptedObjectUploads" "Allow";
                   statement "DenyInsecureConnections" "Allow"]
                  eq_refl eq_refl eq_refl)).
  reflexivity.
Defined.

Lemma missing_sids_are_named_witness :
  forallb (has_sid [statement "DenyPublicRead" "Deny"]) required_sids = false
  ∧ validate_bucket_policies "policies/s3-bucket-policy-template.json"
      (a_shell "" only_public_read)
    = (Ok (verdict false
             ["Missing security statement: DenyInsecureConnections";
              "Missing security statement: AllowMacieAccess";
              "Missing security statement: DenyUnencryptedObjectUploads"]),
       printed policy_banner (a_shell "" only_public_read)).
Proof.
  split; [ reflexivity | ].
  exact (missing_sids_are_named "policies/s3-bucket-policy-template.json"
           (a_shell "" only_public_read)
           [("Version", PStr "2012-10-17");
            ("Statement", PList [PDict (statement "DenyPublicRead" "Deny")])]
           [statement "DenyPublicRead" "Deny"]
           eq_refl eq_refl eq_refl eq_refl).
Defined.

Lemma non_object_statement_is_rejected_witness :
  py_iter (PDict (statement "DenyPublicRead" "Deny")) = Ok [PStr "Sid"; PStr "Effect"]
  ∧ validate_bucket_policies "policies/s3-bucket-policy-template.json"
      (a_shell "" single_statement)
    = (Ok (verdict false
             ["Bucket policy validation failed: 'str' object has no attribute 'get'"]),
       printed policy_banner (a_shell "" single_statement)).
Proof.
  split; [ reflexivity | ].
  exact (non_object_statement_is_rejected "policies/s3-bucket-policy-template.json"
           (a_shell "" single_statement)
           [("Version", PStr "2012-10-17");
            ("Statement", PDict (statement "DenyPublicRead" "Deny"))]
           (PDict (statement "DenyPublicRead" "Deny")) [] (PStr "Sid") [PStr "Effect"]
           eq_refl eq_refl eq_refl eq_refl eq_refl).
Defined.
